(** * Fix_SKATT_RT: the SDR wrapper and the baseline normalisation

    A shallow embedding of [sdr_wrapper.py] ([parse_gain], [MockRtlSdr]) and
    of the normalisation step of [TabletopApp.sky_obs] in [tabletop_app.py],
    with the properties the specification states about them.

    Layout:
    - [F64]: IEEE-754 binary64 values and the arithmetic Python's [float]
      and numpy's [float64] perform (round to nearest, ties to even);
    - [Py]: exceptions, results, [repr], [str(int)], [int(x)], [float(x)];
    - [SdrWrapper]: [parse_gain] and the [MockRtlSdr] class;
    - [Tabletop]: the three normalisation lines of [sky_obs];
    - the theorems. *)

From Stdlib Require Import ZArith List String Ascii Bool Lia.
From Stdlib Require Floats.SpecFloat DecimalString.
Import ListNotations.

Local Open Scope Z_scope.

(* ===================================================================== *)
(** * Binary64 arithmetic *)
(* ===================================================================== *)

Module F64.

(** Every finite binary64 number is an integer multiple of the smallest
    subnormal, [2^-1074].  A finite value is stored as its sign and its
    magnitude counted in such units, so the order of finite values is the
    order of [Z] and exact sums, products and quotients are integer or
    rational arithmetic on the counts. *)

Definition unit_exp : Z := 1074.

(** [1.0] counted in units. *)
Definition grid : Z := 2 ^ 1074.

(** [2^1024] counted in units: the first magnitude that is out of range. *)
Definition top : Z := 2 ^ 2098.

Inductive f64 : Type :=
| Fnan
| Finf (neg : bool)
| Ffin (neg : bool) (n : Z).

(** Exponent of the spacing of representable numbers around [n] units:
    53 significant bits, and never finer than one unit. *)
Definition shift (n : Z) : Z := Z.max 0 (Z.log2 n - 52).

(** [n] units is a binary64 magnitude. *)
Definition representable (n : Z) : Prop :=
  0 <= n < top /\ n mod 2 ^ shift n = 0.

Definition representableb (n : Z) : bool :=
  (0 <=? n) && (n <? top) && (n mod 2 ^ shift n =? 0).

(** Round the non-negative rational [p / d] (in units) to the nearest
    representable magnitude, ties to the even significand; [None] is
    overflow. *)
Definition round_ne (p d : Z) : option Z :=
  let j := shift (p / d) in
  let u := d * 2 ^ j in
  let k := p / u in
  let r := p mod u in
  let k' := match 2 * r ?= u with
            | Lt => k
            | Gt => k + 1
            | Eq => if Z.even k then k else k + 1
            end in
  let n := k' * 2 ^ j in
  if n <? top then Some n else None.

Definition of_round (neg : bool) (r : option Z) : f64 :=
  match r with
  | Some n => Ffin neg n
  | None => Finf neg
  end.

Definition zero : f64 := Ffin false 0.
Definition one : f64 := Ffin false grid.

Definition is_nan (x : f64) : bool :=
  match x with Fnan => true | _ => false end.

Definition is_inf (x : f64) : bool :=
  match x with Finf _ => true | _ => false end.

Definition signbit (x : f64) : bool :=
  match x with
  | Fnan => false
  | Finf s => s
  | Ffin s _ => s
  end.

Definition fneg (x : f64) : f64 :=
  match x with
  | Fnan => Fnan
  | Finf s => Finf (negb s)
  | Ffin s n => Ffin (negb s) n
  end.

(** The signed count of a finite value. *)
Definition signed (s : bool) (n : Z) : Z := if s then - n else n.

Definition fadd (x y : f64) : f64 :=
  match x, y with
  | Fnan, _ | _, Fnan => Fnan
  | Finf sx, Finf sy => if Bool.eqb sx sy then Finf sx else Fnan
  | Finf sx, Ffin _ _ => Finf sx
  | Ffin _ _, Finf sy => Finf sy
  | Ffin sx n, Ffin sy m =>
      let z := signed sx n + signed sy m in
      if z =? 0 then Ffin (sx && sy) 0
      else of_round (z <? 0) (round_ne (Z.abs z) 1)
  end.

Definition fsub (x y : f64) : f64 := fadd x (fneg y).

Definition fmul (x y : f64) : f64 :=
  match x, y with
  | Fnan, _ | _, Fnan => Fnan
  | Finf sx, Finf sy => Finf (xorb sx sy)
  | Finf sx, Ffin sy m => if m =? 0 then Fnan else Finf (xorb sx sy)
  | Ffin sx n, Finf sy => if n =? 0 then Fnan else Finf (xorb sx sy)
  | Ffin sx n, Ffin sy m => of_round (xorb sx sy) (round_ne (n * m) grid)
  end.

(** Division as numpy performs it on [float64]: a zero divisor gives an
    infinity or a NaN, never an exception. *)
Definition fdiv (x y : f64) : f64 :=
  match x, y with
  | Fnan, _ | _, Fnan => Fnan
  | Finf _, Finf _ => Fnan
  | Finf sx, Ffin sy _ => Finf (xorb sx sy)
  | Ffin sx _, Finf sy => Ffin (xorb sx sy) 0
  | Ffin sx n, Ffin sy m =>
      if m =? 0 then (if n =? 0 then Fnan else Finf (xorb sx sy))
      else of_round (xorb sx sy) (round_ne (n * grid) m)
  end.

(** IEEE comparison: [None] when an operand is a NaN; the two zeros are
    equal. *)
Definition fcompare (x y : f64) : option comparison :=
  match x, y with
  | Fnan, _ | _, Fnan => None
  | Finf sx, Finf sy =>
      Some (if Bool.eqb sx sy then Eq else if sx then Lt else Gt)
  | Finf sx, Ffin _ _ => Some (if sx then Lt else Gt)
  | Ffin _ _, Finf sy => Some (if sy then Gt else Lt)
  | Ffin sx n, Ffin sy m => Some (signed sx n ?= signed sy m)
  end.

Definition flt (x y : f64) : bool :=
  match fcompare x y with Some Lt => true | _ => false end.

Definition fle (x y : f64) : bool :=
  match fcompare x y with Some Lt | Some Eq => true | _ => false end.

Definition feq (x y : f64) : bool :=
  match fcompare x y with Some Eq => true | _ => false end.

(** The value of the decimal literal [m * 10^e] ([0 <= m]), correctly
    rounded, as [float("...")] and a float literal give it. *)
Definition of_decimal (neg : bool) (m e : Z) : f64 :=
  if m =? 0 then Ffin neg 0
  else if 0 <=? e then of_round neg (round_ne (m * 10 ^ e * grid) 1)
  else of_round neg (round_ne (m * grid) (10 ^ (- e))).

(** An integer as a float, correctly rounded. *)
Definition of_Z (z : Z) : f64 := of_decimal (z <? 0) (Z.abs z) 0.

(** The magnitude of a finite value, in units. *)
Definition mag_of (x : f64) : Z :=
  match x with
  | Ffin _ n => n
  | _ => 0
  end.

(** Structural equality of values (the two zeros differ, a NaN equals
    itself): what [x is y]-style identity of bit patterns would give, as
    opposed to [feq]. *)
Definition f64_eqb (x y : f64) : bool :=
  match x, y with
  | Fnan, Fnan => true
  | Finf a, Finf b => Bool.eqb a b
  | Ffin a n, Ffin b m => Bool.eqb a b && (n =? m)
  | _, _ => false
  end.

(** A strictly positive finite binary64 value. *)
Definition positive_finite (x : f64) : bool :=
  match x with
  | Ffin false n => (0 <? n) && representableb n
  | _ => false
  end.

(** [0.0 <= x <= 1.0]. *)
Definition in_unit_interval (x : f64) : bool := fle zero x && fle x one.

(** ** Agreement with the Standard Library's IEEE-754 specification

    [to_spec] writes a value in the sign/mantissa/exponent form of
    [SpecFloat]; the examples at the end of the file compare the operations
    above with [SFdiv], [SFsub], [SFmul] and [SFadd] at precision 53 and
    [emax = 1024]. *)
Definition to_spec (x : f64) : SpecFloat.spec_float :=
  match x with
  | Fnan => SpecFloat.S754_nan
  | Finf s => SpecFloat.S754_infinity s
  | Ffin s n =>
      match Z.shiftr n (shift n) with
      | Zpos m => SpecFloat.S754_finite s m (shift n - unit_exp)
      | _ => SpecFloat.S754_zero s
      end
  end.

End F64.

(* ===================================================================== *)
(** * Python values, exceptions and builtins *)
(* ===================================================================== *)

Module Py.

Import F64.

(** The exception classes the two modules can raise.  [LibUSBError] is
    [rtlsdr.rtlsdr.LibUSBError]. *)
Inductive exn_class : Type :=
| ValueError
| TypeError
| OverflowError
| LibUSBError.

Record exn : Type := Exn { exn_kind : exn_class; exn_msg : string }.

Inductive result (A : Type) : Type :=
| Ok (a : A)
| Raise (e : exn).

Arguments Ok {A} a.
Arguments Raise {A} e.

Definition bind {A B : Type} (c : result A) (k : A -> result B) : result B :=
  match c with
  | Ok a => k a
  | Raise e => Raise e
  end.

Definition exn_class_eqb (a b : exn_class) : bool :=
  match a, b with
  | ValueError, ValueError
  | TypeError, TypeError
  | OverflowError, OverflowError
  | LibUSBError, LibUSBError => true
  | _, _ => false
  end.

(** [try: c  except cls as err: h err]: only an exception of class [cls]
    reaches the handler, any other one propagates. *)
Definition try_except {A : Type} (c : result A) (cls : exn_class)
    (h : exn -> result A) : result A :=
  match c with
  | Ok a => Ok a
  | Raise e => if exn_class_eqb (exn_kind e) cls then h e else Raise e
  end.

(** ** Characters *)

Definition code (c : ascii) : Z := Z.of_N (N_of_ascii c).

Definition squote : ascii := "039"%char.
Definition dquote : ascii := "034"%char.
Definition backslash : ascii := "092"%char.

Definition is_digit (c : ascii) : bool := (48 <=? code c) && (code c <=? 57).

Definition digit_val (c : ascii) : Z := code c - 48.

(** White space [float] strips: the ASCII white space, and the two
    Latin-1 code points Unicode counts as white space. *)
Definition is_space (c : ascii) : bool :=
  let n := code c in
  ((9 <=? n) && (n <=? 13)) || (n =? 32) || (n =? 133) || (n =? 160).

Definition lower (c : ascii) : ascii :=
  if (65 <=? code c) && (code c <=? 90)
  then ascii_of_N (N_of_ascii c + 32) else c.

Definition hex_digit (n : Z) : ascii :=
  if n <? 10 then ascii_of_N (Z.to_N (48 + n))
  else ascii_of_N (Z.to_N (87 + n)).

(** ** [repr] *)

(** Code points [repr] writes as an escape: the control characters and the
    Latin-1 characters that are not printable. *)
Definition needs_hex (c : ascii) : bool :=
  let n := code c in
  (n <? 32) || ((127 <=? n) && (n <=? 160)) || (n =? 173).

Definition repr_char (q c : ascii) : list ascii :=
  if Ascii.eqb c q || Ascii.eqb c backslash then [backslash; c]
  else if code c =? 9 then [backslash; "t"%char]
  else if code c =? 10 then [backslash; "n"%char]
  else if code c =? 13 then [backslash; "r"%char]
  else if needs_hex c
       then [backslash; "x"%char; hex_digit (code c / 16);
             hex_digit (code c mod 16)]
  else [c].

Definition mem_char (c : ascii) (l : list ascii) : bool :=
  existsb (Ascii.eqb c) l.

(** [repr(s)] for a [str]: single quotes, unless the text holds a single
    quote and no double quote. *)
Definition repr_str (s : string) : string :=
  let l := list_ascii_of_string s in
  let q := if mem_char squote l && negb (mem_char dquote l)
           then dquote else squote in
  string_of_list_ascii (q :: flat_map (repr_char q) l ++ [q]).

(** The argument of [parse_gain]: annotated [str], and [None] is what the
    specification names as the other input. *)
Inductive text_arg : Type :=
| PyNone
| PyStr (s : string).

Definition repr (v : text_arg) : string :=
  match v with
  | PyNone => "None"%string
  | PyStr s => repr_str s
  end.

(** ** [str] of an [int] *)

Definition str_of_int (z : Z) : string :=
  DecimalString.NilZero.string_of_int (Z.to_int z).

(** ** [float(text)] *)

(** [digit (["_"] digit)*] after its first digit: the value so far, the
    number of digits so far, and whether the last character was the
    underscore.  A dangling underscore fails. *)
Fixpoint digitpart_go (prev_us : bool) (acc cnt : Z) (l : list ascii)
    : option (Z * Z * list ascii) :=
  match l with
  | [] => if prev_us then None else Some (acc, cnt, [])
  | c :: l' =>
      if is_digit c then digitpart_go false (10 * acc + digit_val c) (cnt + 1) l'
      else if Ascii.eqb c "_"%char && negb prev_us
           then digitpart_go true acc cnt l'
      else if prev_us then None
      else Some (acc, cnt, l)
  end.

Definition digitpart (l : list ascii) : option (Z * Z * list ascii) :=
  match l with
  | c :: l' => if is_digit c then digitpart_go false (digit_val c) 1 l' else None
  | [] => None
  end.

(** [[digitpart] "." digitpart | digitpart ["."]]: the digits read as an
    integer, the decimal exponent that places the point, and the rest. *)
Definition number (l : list ascii) : option (Z * Z * list ascii) :=
  match digitpart l with
  | Some (ip, _, rest) =>
      match rest with
      | c :: rest' =>
          if Ascii.eqb c "."%char then
            match digitpart rest' with
            | Some (fp, fc, rest'') => Some (ip * 10 ^ fc + fp, - fc, rest'')
            | None => Some (ip, 0, rest')
            end
          else Some (ip, 0, rest)
      | [] => Some (ip, 0, [])
      end
  | None =>
      match l with
      | c :: rest' =>
          if Ascii.eqb c "."%char then
            match digitpart rest' with
            | Some (fp, fc, rest'') => Some (fp, - fc, rest'')
            | None => None
            end
          else None
      | [] => None
      end
  end.

Definition take_sign (l : list ascii) : bool * list ascii :=
  match l with
  | c :: r =>
      if Ascii.eqb c "-"%char then (true, r)
      else if Ascii.eqb c "+"%char then (false, r)
      else (false, l)
  | [] => (false, [])
  end.

Definition list_ascii_eqb (a : list ascii) (b : string) : bool :=
  String.eqb (string_of_list_ascii a) b.

(** [[sign] (floatnumber | infinity | nan)], the whole of the text. *)
Definition floatvalue (l : list ascii) : option f64 :=
  let (neg, l1) := take_sign l in
  let low := map lower l1 in
  if list_ascii_eqb low "inf" || list_ascii_eqb low "infinity"
  then Some (Finf neg)
  else if list_ascii_eqb low "nan" then Some Fnan
  else
    match number l1 with
    | None => None
    | Some (m, e, []) => Some (of_decimal neg m e)
    | Some (m, e, c :: rest) =>
        if Ascii.eqb (lower c) "e"%char then
          let (eneg, l2) := take_sign rest in
          match digitpart l2 with
          | Some (x, _, []) => Some (of_decimal neg m (e + signed eneg x))
          | _ => None
          end
        else None
    end.

Fixpoint lstrip (l : list ascii) : list ascii :=
  match l with
  | c :: l' => if is_space c then lstrip l' else l
  | [] => []
  end.

Definition strip (l : list ascii) : list ascii :=
  rev (lstrip (rev (lstrip l))).

Definition parse_float (s : string) : option f64 :=
  floatvalue (strip (list_ascii_of_string s)).

(** [float(v)]: a [TypeError] for [None], a [ValueError] that quotes the
    text for a [str] that is not a number. *)
Definition float (v : text_arg) : result f64 :=
  match v with
  | PyNone =>
      Raise (Exn TypeError
        "float() argument must be a string or a real number, not 'NoneType'")
  | PyStr s =>
      match parse_float s with
      | Some f => Ok f
      | None =>
          Raise (Exn ValueError
            ("could not convert string to float: " ++ repr_str s))
      end
  end.

(** ** [int(x)] for a number *)

Inductive num : Type :=
| PyInt (z : Z)
| PyFloat (f : f64).

(** Truncation toward zero; a NaN and the infinities have no integer. *)
Definition int (x : num) : result Z :=
  match x with
  | PyInt z => Ok z
  | PyFloat Fnan =>
      Raise (Exn ValueError "cannot convert float NaN to integer")
  | PyFloat (Finf _) =>
      Raise (Exn OverflowError "cannot convert float infinity to integer")
  | PyFloat (Ffin s n) => Ok (Z.quot (signed s n) grid)
  end.

End Py.

(* ===================================================================== *)
(** * sdr_wrapper.py *)
(* ===================================================================== *)

Module SdrWrapper.

Import F64 Py.

(** [Gain = Union[float, str]]. *)
Inductive Gain : Type :=
| GFloat (f : f64)
| GStr (s : string).

Definition gain_eq_str (g : Gain) (t : string) : bool :=
  match g with
  | GStr s => String.eqb s t
  | GFloat _ => false
  end.

Definition text_eq_str (v : text_arg) (t : string) : bool :=
  match v with
  | PyStr s => String.eqb s t
  | PyNone => false
  end.

(** [parse_gain]: the text ["auto"] is returned as it is; anything else
    goes through [float], and only a [TypeError] of [float] is caught and
    raised again with the message of [parse_gain]. *)
Definition parse_gain (gain_str : text_arg) : result Gain :=
  if text_eq_str gain_str "auto" then Ok (GStr "auto")
  else
    try_except
      (bind (float gain_str) (fun f => Ok (GFloat f)))
      TypeError
      (fun err =>
         Raise (Exn TypeError ("Invalid gain string: " ++ repr gain_str))).

(** ** [class MockRtlSdr] *)

Record MockRtlSdr : Type := {
  sample_rate : f64;
  center_freq : f64;
  gain : Gain
}.

Definition MAX_READ_SAMPLES : Z := 2 ^ 24.

(** [__init__]: 2.048e6 Hz, 1420.4e6 Hz, gain 1.0. *)
Definition init : MockRtlSdr := {|
  sample_rate := of_decimal false 2048 3;
  center_freq := of_decimal false 14204 5;
  gain := GFloat one
|}.

Definition get_gain (self : MockRtlSdr) : Gain :=
  if gain_eq_str (gain self) "auto" then GFloat one else gain self.

(** [0.01 * g]: a product of floats, or a [TypeError] for a [str]. *)
Definition float_times (a : f64) (g : Gain) : result f64 :=
  match g with
  | GFloat x => Ok (fmul a x)
  | GStr _ =>
      Raise (Exn TypeError
        "can't multiply sequence by non-int of type 'float'")
  end.

(** [complex128]. *)
Record complex : Type := Cx { re : f64; im : f64 }.

Definition of_real (x : f64) : complex := Cx x zero.

Definition cadd (a b : complex) : complex :=
  Cx (fadd (re a) (re b)) (fadd (im a) (im b)).

Definition cmul (a b : complex) : complex :=
  Cx (fsub (fmul (re a) (re b)) (fmul (im a) (im b)))
     (fadd (fmul (re a) (im b)) (fmul (im a) (re b))).

(** [1.0j]. *)
Definition imag_unit : complex := Cx zero one.

(** [real + 1.0j * imag] on two float arrays of one length. *)
Definition to_complex (real imag : list f64) : list complex :=
  map (fun xy => cadd (of_real (fst xy)) (cmul imag_unit (of_real (snd xy))))
      (combine real imag).

(** The gains for which [0.01 * gain] is a scale numpy accepts: the
    sentinel, or a float whose sign bit is clear (every positive gain). *)
Definition gain_ok (g : Gain) : bool :=
  match g with
  | GStr s => String.eqb s "auto"
  | GFloat f => negb (signbit f)
  end.

(** The effective gain in the specification's words: 1.0 when the gain is
    the sentinel, the numeric gain value otherwise (a text other than the
    sentinel has none). *)
Definition spec_effective_gain (g : Gain) : option f64 :=
  match g with
  | GStr s => if String.eqb s "auto" then Some one else None
  | GFloat f => Some f
  end.

Section Methods.

(** numpy's global random state and its standard normal generator: the
    source of the noise, of which nothing is assumed. *)
Variable rng : Type.
Variable gauss : rng -> f64 * rng.

(** What a method can read and change: the object and the global random
    state. *)
Record world : Type := World { self_obj : MockRtlSdr; rand : rng }.

(** A method body: a result or an exception, and the world it leaves. *)
Definition M (A : Type) : Type := world -> result A * world.

Definition ret {A : Type} (a : A) : M A := fun w => (Ok a, w).

Definition raise {A : Type} (c : exn_class) (m : string) : M A :=
  fun w => (Raise (Exn c m), w).

Definition lift {A : Type} (r : result A) : M A := fun w => (r, w).

Definition bindM {A B : Type} (c : M A) (k : A -> M B) : M B :=
  fun w =>
    match c w with
    | (Ok a, w') => k a w'
    | (Raise e, w') => (Raise e, w')
    end.

Definition self : M MockRtlSdr := fun w => (Ok (self_obj w), w).

Notation "x <- c ;; k" := (bindM c (fun x => k))
  (at level 61, c at next level, right associativity).

(** [size] draws of [0.0 + scale * gauss()]. *)
Fixpoint draws (size : nat) (scale : f64) (g : rng) : list f64 * rng :=
  match size with
  | O => ([], g)
  | S k =>
      let (z, g1) := gauss g in
      let (zs, g2) := draws k scale g1 in
      (fadd zero (fmul scale z) :: zs, g2)
  end.

(** [np.random.normal(size=size, scale=scale)]: a scale with the sign bit
    set is refused. *)
Definition np_random_normal (size : Z) (scale : f64) : M (list f64) :=
  fun w =>
    if signbit scale && negb (is_nan scale)
    then (Raise (Exn ValueError "scale < 0"), w)
    else
      let (xs, g) := draws (Z.to_nat size) scale (rand w) in
      (Ok xs, World (self_obj w) g).

(** [close]: [pass]. *)
Definition close : M unit := ret tt.

Definition read_samples (num_samples : num) : M (list complex) :=
  n <- lift (int num_samples) ;;
  if negb (n >? 0)
  then raise ValueError "Number of samples to read must be > 0"
  else if n >? MAX_READ_SAMPLES
  then raise LibUSBError
         ("<LIBUSB_ERROR_NO_MEM (-11): Insufficient memory> "
          ++ "Could not read " ++ str_of_int n ++ " bytes")
  else
    dev <- self ;;
    scale <- lift (float_times (of_decimal false 1 (-2)) (get_gain dev)) ;;
    real <- np_random_normal n scale ;;
    imag <- np_random_normal n scale ;;
    ret (to_complex real imag).

End Methods.

(** The exception of a count that is not positive. *)
Definition too_few : exn :=
  Exn ValueError "Number of samples to read must be > 0".

(** The exception of a count above [MAX_READ_SAMPLES]. *)
Definition no_mem (n : Z) : exn :=
  Exn LibUSBError
    ("<LIBUSB_ERROR_NO_MEM (-11): Insufficient memory> Could not read "
     ++ str_of_int n ++ " bytes").

Arguments World {rng} self_obj rand.
Arguments self_obj {rng} w.
Arguments rand {rng} w.
Arguments close {rng} w.
Arguments read_samples {rng} gauss num_samples w.
Arguments np_random_normal {rng} gauss size scale w.
Arguments draws {rng} gauss size scale g.
Arguments bindM {rng A B} c k w.
Arguments ret {rng A} a w.
Arguments lift {rng A} r w.

End SdrWrapper.

(* ===================================================================== *)
(** * tabletop_app.py: the normalisation in [sky_obs] *)
(* ===================================================================== *)

Module Tabletop.

Import F64 Py.

Definition shape_str (n : nat) : string :=
  "(" ++ str_of_int (Z.of_nat n) ++ ",)".

(** [a / b] on one-dimensional [float64] arrays: element by element when
    the lengths agree, an array of length one stretched to the other, a
    [ValueError] otherwise. *)
Definition np_divide (a b : list f64) : result (list f64) :=
  if Nat.eqb (List.length a) (List.length b)
  then Ok (map (fun xy => fdiv (fst xy) (snd xy)) (combine a b))
  else
    match a, b with
    | [x], _ => Ok (map (fun y => fdiv x y) b)
    | _, [y] => Ok (map (fun x => fdiv x y) a)
    | _, _ =>
        Raise (Exn ValueError
          ("operands could not be broadcast together with shapes "
           ++ shape_str (List.length a) ++ " " ++ shape_str (List.length b) ++ " "))
    end.

(** One step of numpy's [minimum] and [maximum] reductions: a NaN in the
    accumulator stays. *)
Definition fmin (acc x : f64) : f64 :=
  if flt acc x || is_nan acc then acc else x.

Definition fmax (acc x : f64) : f64 :=
  if flt x acc || is_nan acc then acc else x.

Definition np_min (a : list f64) : result f64 :=
  match a with
  | [] =>
      Raise (Exn ValueError
        "zero-size array to reduction operation minimum which has no identity")
  | x :: l => Ok (fold_left fmin l x)
  end.

Definition np_max (a : list f64) : result f64 :=
  match a with
  | [] =>
      Raise (Exn ValueError
        "zero-size array to reduction operation maximum which has no identity")
  | x :: l => Ok (fold_left fmax l x)
  end.

(** Lines 242-243 of [sky_obs]: subtract the minimum, divide by the
    maximum of what is left.
      HIspectrum = HIspectrum - np.min(HIspectrum)
      HIspectrum = HIspectrum / np.max(HIspectrum) *)
Definition rescale (a : list f64) : result (list f64) :=
  bind (np_min a) (fun lo =>
  let shifted := map (fun x => fsub x lo) a in
  bind (np_max shifted) (fun hi =>
  Ok (map (fun x => fdiv x hi) shifted))).

(** Lines 241-243 of [sky_obs]: the ratio to the baseline (line 241,
      HIspectrum = power_spectrum / self._baseline_power_spectrum)
    and its rescaling. *)
Definition normalise (power_spectrum baseline : list f64)
    : result (list f64) :=
  bind (np_divide power_spectrum baseline) rescale.

(** All the elements of an array are one value. *)
Definition all_equal (a : list f64) : bool :=
  match a with
  | [] => true
  | x :: l => forallb (f64_eqb x) l
  end.

End Tabletop.

(* ===================================================================== *)
(** * Classes of values used in the statements *)
(* ===================================================================== *)

Module Values.

Import F64.

(** A non-negative finite binary64 value (a zero with the sign bit clear
    included). *)
Definition nonneg_finite (x : f64) : bool :=
  match x with
  | Ffin false n => representableb n
  | _ => false
  end.

(** A finite binary64 value of either sign, or a NaN or an infinity. *)
Definition well_formed (x : f64) : bool :=
  match x with
  | Ffin _ n => representableb n
  | _ => true
  end.

(** Neither a NaN nor an infinity. *)
Definition finite (x : f64) : bool :=
  match x with
  | Ffin _ _ => true
  | _ => false
  end.

(** A value as an addition to [0.0] leaves it: well formed, and not the
    negative zero. *)
Definition settled (x : f64) : bool :=
  match x with
  | Ffin s n => representableb n && negb (s && (n =? 0))
  | _ => true
  end.

(** A non-negative finite value or the positive infinity: what a
    quotient of a positive value by a non-negative one can be. *)
Definition nonneg_or_inf (x : f64) : bool :=
  match x with
  | Ffin false n => representableb n
  | Finf false => true
  | _ => false
  end.

(** The magnitude of a value on a scale where the infinities come above
    every finite value. *)
Definition ext_mag (x : f64) : Z :=
  match x with
  | Ffin _ n => n
  | Finf _ => top
  | Fnan => 0
  end.

End Values.

(* ===================================================================== *)
(** * tabletop_app.py: the methods of [TabletopApp] *)
(* ===================================================================== *)

Module App.

Import F64 Py Tabletop.

(** ** [format(x, ".2f")] *)

(** [p / d] rounded to the nearest integer, ties to even. *)
Definition round_half_even (p d : Z) : Z :=
  let k := p / d in
  match 2 * (p mod d) ?= d with
  | Lt => k
  | Gt => k + 1
  | Eq => if Z.even k then k else k + 1
  end.

Definition two_digits (n : Z) : string :=
  if n <? 10 then "0" ++ str_of_int n else str_of_int n.

(** The [{x:.2f}] of an f-string: the exact value rounded to two decimals. *)
Definition format_2f (x : f64) : string :=
  match x with
  | Fnan => "nan"
  | Finf s => if s then "-inf" else "inf"
  | Ffin s n =>
      let k := round_half_even (100 * n) grid in
      (if s then "-" else "") ++ str_of_int (k / 100) ++ "."
      ++ two_digits (k mod 100)
  end.

(** [str(err)], the [{err!s}] of an f-string. *)
Definition str_of_exn (e : exn) : string := exn_msg e.

(** ** The object and what its methods act on *)

(** [self._sdr_class]: [MockRtlSdr] or [rtlsdr.RtlSdr]. *)
Inductive sdr_class : Type :=
| MockRtlSdrClass
| RtlSdrClass.

Record TabletopApp : Type := {
  _sdr_class : sdr_class;
  _optimal_gain : option f64;
  _baseline_power_spectrum : option (list f64)
}.

(** The fields as [__init__] sets them (lines 24-30). *)
Definition init_fields (mock_device : bool) : TabletopApp := {|
  _sdr_class := if mock_device then MockRtlSdrClass else RtlSdrClass;
  _optimal_gain := None;
  _baseline_power_spectrum := None
|}.

(** The calls the methods make on the widgets, the figure and the
    standard output, in the order they are made.  The widget calls
    themselves are taken not to raise, but for [set_ylim], which refuses a
    limit that is not finite. *)
Inductive event : Type :=
| StatusConfig (text : string)         (* status_bar.config(text=...) *)
| UpdateIdletasks                      (* root.update_idletasks() *)
| AxClear                              (* ax.clear() *)
| AxAxis (arg : string)                (* ax.axis(arg) *)
| CanvasDraw                           (* canvas.draw() *)
| AxText (x y : f64) (s : string) (fontsize : Z) (bold : bool)
         (color : string)              (* ax.text(x, y, s, ...) *)
| Print (s : string)                   (* print(s) *)
| PlotPowerSpectrum (freq_hz spectrum : list f64)
                                       (* plot_power_spectrum_on_axes *)
| AxSetTitle (s : string) (fontsize : Z)
| AxSetYlim (bottom top : f64)
| TightLayout.                         (* fig.tight_layout() *)

Section Methods.

(** What lies outside the two files: the state of the device and of the
    rest of the program, and the three functions imported from
    [gain_search], [record_data] and [plotting].

    [find_optimal_gain cls] returns the gains it hands to its callback,
    in order, and its result or exception; the callback of [prepare]
    returns [None] and acts on the status bar alone. *)
Variable env : Type.
Variable find_optimal_gain : sdr_class -> env -> (list f64 * result f64) * env.
Variable record_power_spectrum :
  sdr_class -> f64 -> env -> result (list f64 * list f64) * env.
Variable plot_power_spectrum_on_axes : list f64 -> list f64 -> result unit.

Record world : Type := World {
  app : TabletopApp;
  events : list event;
  outside : env
}.

Definition M (A : Type) : Type := world -> result A * world.

Definition ret {A : Type} (a : A) : M A := fun w => (Ok a, w).

Definition lift {A : Type} (r : result A) : M A := fun w => (r, w).

Definition bindM {A B : Type} (c : M A) (k : A -> M B) : M B :=
  fun w =>
    match c w with
    | (Ok a, w') => k a w'
    | (Raise e, w') => (Raise e, w')
    end.

Notation "x <- c ;; k" := (bindM c (fun x => k))
  (at level 61, c at next level, right associativity).
Notation "c ;; k" := (bindM c (fun _ => k))
  (at level 61, right associativity).

(** [try: c  except Exception as err: ...]: every exception of [c] is
    handed over as a value. *)
Definition try_ {A : Type} (c : M A) : M (result A) :=
  fun w => let (r, w') := c w in (Ok r, w').

Definition emit (e : event) : M unit :=
  fun w => (Ok tt, World (app w) (events w ++ [e]) (outside w)).

Definition self : M TabletopApp := fun w => (Ok (app w), w).

Definition set_optimal_gain (g : f64) : M unit :=
  fun w =>
    (Ok tt,
     World {| _sdr_class := _sdr_class (app w);
              _optimal_gain := Some g;
              _baseline_power_spectrum := _baseline_power_spectrum (app w) |}
           (events w) (outside w)).

Definition set_baseline_power_spectrum (p : list f64) : M unit :=
  fun w =>
    (Ok tt,
     World {| _sdr_class := _sdr_class (app w);
              _optimal_gain := _optimal_gain (app w);
              _baseline_power_spectrum := Some p |}
           (events w) (outside w)).

(** [ax.set_ylim(bottom, top)]: matplotlib raises on a NaN or an infinite
    limit. *)
Definition set_ylim (bottom top : f64) : M unit :=
  match bottom, top with
  | Ffin _ _, Ffin _ _ => emit (AxSetYlim bottom top)
  | _, _ =>
      lift (Raise (Exn ValueError "Axis limits cannot be NaN or Inf"))
  end.

Definition update_status (message : string) : M unit :=
  emit (StatusConfig ("Status: " ++ message)) ;;
  emit UpdateIdletasks.

Definition clear_figure : M unit :=
  emit AxClear ;;
  emit (AxAxis "off") ;;
  emit CanvasDraw ;;
  emit UpdateIdletasks.

Definition SKAO_BLUE : string := "#070068".
Definition SKAO_MAGENTA : string := "#E50869".

(** The loop of [show_text_on_figure]: a line, then [y -= ystep]. *)
Fixpoint text_lines (x y ystep : f64) (lines : list string) : M unit :=
  match lines with
  | [] => ret tt
  | line :: rest =>
      emit (AxText x y line 16 false SKAO_BLUE) ;;
      text_lines x (fsub y ystep) ystep rest
  end.

Definition show_text_on_figure (lines : list string) (title : string)
    : M unit :=
  clear_figure ;;
  let x := of_decimal false 12 (-2) in
  let y := of_decimal false 70 (-2) in
  let ystep := of_decimal false 1 (-1) in
  emit (AxText x y title 16 true SKAO_MAGENTA) ;;
  text_lines x (fsub y ystep) ystep lines ;;
  emit CanvasDraw.

(** The callback of [prepare], once per gain tried. *)
Fixpoint callbacks (gains : list f64) : M unit :=
  match gains with
  | [] => ret tt
  | gain :: rest =>
      update_status
        ("Finding optimal gain ... trying gain = " ++ format_2f gain) ;;
      callbacks rest
  end.

Definition call_find_optimal_gain : M f64 :=
  fun w =>
    let '((gains, r), o) := find_optimal_gain (_sdr_class (app w)) (outside w) in
    match callbacks gains (World (app w) (events w) o) with
    | (_, w') => (r, w')
    end.

Definition call_record_power_spectrum (gain : f64)
    : M (list f64 * list f64) :=
  fun w =>
    let (r, o) := record_power_spectrum (_sdr_class (app w)) gain (outside w) in
    (r, World (app w) (events w) o).

Definition prepare : M unit :=
  show_text_on_figure
    ["This step calibrates your RF device";
     "Searching for optimal gain ..."]%string
    "Preparation in progress" ;;
  update_status "Finding optimal gain ..." ;;
  found <- try_ call_find_optimal_gain ;;
  match found with
  | Raise err => update_status ("Preparation failed: " ++ str_of_exn err)
  | Ok gain =>
      set_optimal_gain gain ;;
      show_text_on_figure
        ["This step calibrates your RF device";
         "Searching for optimal gain ... DONE.";
         "Recording baseline power spectrum ..."]%string
        "Preparation in progress" ;;
      update_status
        ("Optimal gain found (" ++ format_2f gain
         ++ "), recording baseline power spectrum ...") ;;
      recorded <- call_record_power_spectrum gain ;;
      set_baseline_power_spectrum (snd recorded) ;;
      update_status "Preparation complete!" ;;
      show_text_on_figure
        ["Optimum Gain = " ++ format_2f gain;
         "You can observe the Milky Way!";
         "Remove RF termination and";
         "Connect your antenna to the Sawbird HI"]%string
        "Preparation complete"
  end.

Definition sky_obs : M unit :=
  me <- self ;;
  match _baseline_power_spectrum me, _optimal_gain me with
  | Some baseline, Some gain =>
      show_text_on_figure
        ["This should take about 30 seconds ...";
         "An interactive graph should appear at the end!"]%string
        "Sky observation in progress" ;;
      update_status "Recording sky observation ..." ;;
      emit (Print ("Recording data, using optimal gain: " ++ format_2f gain)) ;;
      recorded <- try_ (call_record_power_spectrum gain) ;;
      match recorded with
      | Raise err => update_status ("Observation failed: " ++ str_of_exn err)
      | Ok (freq_hz, power_spectrum) =>
          HIspectrum <- lift (normalise power_spectrum baseline) ;;
          update_status "Observation finished!" ;;
          clear_figure ;;
          emit (PlotPowerSpectrum freq_hz HIspectrum) ;;
          lift (plot_power_spectrum_on_axes freq_hz HIspectrum) ;;
          emit (AxAxis "on") ;;
          emit (AxSetTitle "Hydrogen Line (HI) signal of the Milky Way" 16) ;;
          lo <- lift (np_min HIspectrum) ;;
          set_ylim lo (of_decimal false 101 (-2)) ;;
          emit TightLayout ;;
          emit CanvasDraw
      end
  | _, _ => update_status "Please run the preparation step first!"
  end.

(** ** The buttons of [init_gui] and the main loop *)

Inductive button : Type :=
| ButtonPrepare
| ButtonObserve
| ButtonClear
| ButtonExit.

(** [command=...] of the three buttons bound to methods (lines 76-101). *)
Definition command (b : button) : M unit :=
  match b with
  | ButtonPrepare => prepare
  | ButtonObserve => sky_obs
  | ButtonClear => clear_figure
  | ButtonExit => ret tt
  end.

(** [root.mainloop()] over a sequence of clicks: Tk reports an exception
    of a command and goes on with the next event; [Exit] is
    [root.destroy], which ends the loop. *)
Fixpoint mainloop (clicks : list button) (w : world) : world :=
  match clicks with
  | [] => w
  | ButtonExit :: _ => w
  | b :: rest => mainloop rest (snd (command b w))
  end.

End Methods.

Arguments World {env} app events outside.
Arguments app {env} w.
Arguments events {env} w.
Arguments outside {env} w.
Arguments update_status {env} message w.
Arguments clear_figure {env} w.
Arguments show_text_on_figure {env} lines title w.
Arguments callbacks {env} gains w.
Arguments emit {env} e w.
Arguments set_ylim {env} bottom top w.

(** ** The events of the methods that only draw

    What [update_status], [clear_figure], [show_text_on_figure] and the
    callbacks append to the sequence of events; the lemmas below show that
    these methods do nothing else. *)

Definition status_events (message : string) : list event :=
  [StatusConfig ("Status: " ++ message); UpdateIdletasks].

Definition clear_events : list event :=
  [AxClear; AxAxis "off"; CanvasDraw; UpdateIdletasks].

Fixpoint text_events (x y ystep : f64) (lines : list string) : list event :=
  match lines with
  | [] => []
  | line :: rest =>
      AxText x y line 16 false SKAO_BLUE
      :: text_events x (fsub y ystep) ystep rest
  end.

Definition show_text_events (lines : list string) (title : string)
    : list event :=
  clear_events
  ++ AxText (of_decimal false 12 (-2)) (of_decimal false 70 (-2)) title 16
       true SKAO_MAGENTA
  :: text_events (of_decimal false 12 (-2))
       (fsub (of_decimal false 70 (-2)) (of_decimal false 1 (-1)))
       (of_decimal false 1 (-1)) lines
  ++ [CanvasDraw].

Definition callback_events (gains : list f64) : list event :=
  flat_map
    (fun gain =>
       status_events ("Finding optimal gain ... trying gain = "
                      ++ format_2f gain))
    gains.

(** What [prepare] appends up to the end of the gain search, then up to
    the recording of the baseline, and after it. *)
Definition search_events (gains : list f64) : list event :=
  show_text_events
    ["This step calibrates your RF device";
     "Searching for optimal gain ..."]%string
    "Preparation in progress"
  ++ status_events "Finding optimal gain ..."
  ++ callback_events gains.

Definition recording_events (gain : f64) : list event :=
  show_text_events
    ["This step calibrates your RF device";
     "Searching for optimal gain ... DONE.";
     "Recording baseline power spectrum ..."]%string
    "Preparation in progress"
  ++ status_events
       ("Optimal gain found (" ++ format_2f gain
        ++ "), recording baseline power spectrum ...").

Definition complete_events (gain : f64) : list event :=
  status_events "Preparation complete!"
  ++ show_text_events
       [("Optimum Gain = " ++ format_2f gain)%string;
        "You can observe the Milky Way!"%string;
        "Remove RF termination and"%string;
        "Connect your antenna to the Sawbird HI"%string]
       "Preparation complete".

(** What [sky_obs] appends before the recording, and from the end of the
    normalisation to the call of the plotting function. *)
Definition observing_events (gain : f64) : list event :=
  show_text_events
    ["This should take about 30 seconds ...";
     "An interactive graph should appear at the end!"]%string
    "Sky observation in progress"
  ++ status_events "Recording sky observation ..."
  ++ [Print ("Recording data, using optimal gain: " ++ format_2f gain)].

Definition plotting_events (freq_hz spectrum : list f64) : list event :=
  status_events "Observation finished!"
  ++ clear_events
  ++ [PlotPowerSpectrum freq_hz spectrum].

Definition title_events : list event :=
  [AxAxis "on";
   AxSetTitle "Hydrogen Line (HI) signal of the Milky Way" 16].

(** The object after [self._optimal_gain = gain] and after
    [self._baseline_power_spectrum = power]. *)
Definition with_gain (a : TabletopApp) (gain : f64) : TabletopApp := {|
  _sdr_class := _sdr_class a;
  _optimal_gain := Some gain;
  _baseline_power_spectrum := _baseline_power_spectrum a
|}.

Definition with_baseline (a : TabletopApp) (power : list f64)
    : TabletopApp := {|
  _sdr_class := _sdr_class a;
  _optimal_gain := _optimal_gain a;
  _baseline_power_spectrum := Some power
|}.

(** The status texts among a sequence of events, in order. *)
Fixpoint statuses (es : list event) : list string :=
  match es with
  | [] => []
  | StatusConfig t :: rest => t :: statuses rest
  | _ :: rest => statuses rest
  end.

(** The spectra handed to the plotting function, in order. *)
Fixpoint plotted (es : list event) : list (list f64 * list f64) :=
  match es with
  | [] => []
  | PlotPowerSpectrum f s :: rest => (f, s) :: plotted rest
  | _ :: rest => plotted rest
  end.

(** What the object knows after a calibration: a baseline is never held
    without a gain. *)
Definition calibration_ok (a : TabletopApp) : Prop :=
  _baseline_power_spectrum a <> None -> _optimal_gain a <> None.

End App.

(* ===================================================================== *)
(** * Concrete inputs *)
(* ===================================================================== *)

Module Samples.

Import F64 Py SdrWrapper Tabletop.

(** A deterministic stand-in for the generator: the draws are
    -3.0, -2.0, -1.0, 0.0, 1.0, ... *)
Definition counter_gauss (k : nat) : f64 * nat :=
  (of_Z (Z.of_nat k - 3), S k).

(** A newly constructed device and the generator at its start. *)
Definition fresh : world nat := World init 0%nat.

Definition half : f64 := of_decimal false 5 (-1).
Definition two : f64 := of_decimal false 2 0.
Definition three : f64 := of_decimal false 3 0.
Definition four : f64 := of_decimal false 4 0.

(** An observation and a baseline of three bins. *)
Definition obs3 : list f64 := [two; four; three].
Definition base3 : list f64 := [two; two; two].
Definition ratio3 : list f64 :=
  map (fun xy => fdiv (fst xy) (snd xy)) (combine obs3 base3).

(** Two bins whose first ratio, 1e300 / 1e-300, is out of range. *)
Definition obs_huge : list f64 := [of_decimal false 1 300; one].
Definition base_tiny : list f64 := [of_decimal false 1 (-300); one].

(** Two bins over a baseline of one bin. *)
Definition obs2 : list f64 := [two; four].
Definition base1 : list f64 := [two].

(** A baseline of two bins, for the observation of three. *)
Definition base2 : list f64 := [two; two].

(** A flat spectrum over a flat baseline. *)
Definition flat2 : list f64 := [one; one].

(** Pairs on which the arithmetic is compared with [SpecFloat]: ordinary
    values, a quotient out of range, a quotient that underflows, a
    subnormal, the largest finite value, a zero and an infinity. *)
Definition probes : list (f64 * f64) :=
  [ (of_decimal false 1 (-2), of_decimal false 14204 5);
    (three, of_decimal true 1 (-1));
    (of_decimal false 1 300, of_decimal false 1 (-300));
    (of_decimal false 1 (-300), of_decimal false 1 300);
    (of_decimal false 5 (-324), three);
    (of_decimal true 17976931348623157 292, half);
    (Ffin true 0, Finf false);
    (one, one) ].

Definition spec_eqb (x y : SpecFloat.spec_float) : bool :=
  match x, y with
  | SpecFloat.S754_zero a, SpecFloat.S754_zero b => Bool.eqb a b
  | SpecFloat.S754_infinity a, SpecFloat.S754_infinity b => Bool.eqb a b
  | SpecFloat.S754_nan, SpecFloat.S754_nan => true
  | SpecFloat.S754_finite a m e, SpecFloat.S754_finite b m' e' =>
      Bool.eqb a b && Pos.eqb m m' && (e =? e')
  | _, _ => false
  end.

(** [op] and the [SpecFloat] operation [sop] agree on every probe. *)
Definition agree
    (op : f64 -> f64 -> f64)
    (sop : SpecFloat.spec_float -> SpecFloat.spec_float -> SpecFloat.spec_float)
    : bool :=
  forallb (fun xy =>
             spec_eqb (to_spec (op (fst xy) (snd xy)))
                      (sop (to_spec (fst xy)) (to_spec (snd xy))))
          probes.

End Samples.

(* ===================================================================== *)
(** * Concrete devices, spectra and surroundings of the application *)
(* ===================================================================== *)

Module AppSamples.

Import F64 Py SdrWrapper Tabletop App Samples.

(** A device whose gain was set to -1.0, and one whose gain was set to a
    text that is not the sentinel. *)
Definition negative_device : SdrWrapper.world nat :=
  SdrWrapper.World
    {| sample_rate := sample_rate init;
       center_freq := center_freq init;
       gain := GFloat (of_decimal true 1 0) |}
    0%nat.

Definition manual_device : SdrWrapper.world nat :=
  SdrWrapper.World
    {| sample_rate := sample_rate init;
       center_freq := center_freq init;
       gain := GStr "manual" |}
    0%nat.

(** A device whose gain was set to -0.0. *)
Definition negative_zero_device : SdrWrapper.world nat :=
  SdrWrapper.World
    {| sample_rate := sample_rate init;
       center_freq := center_freq init;
       gain := GFloat (Ffin true 0) |}
    0%nat.

(** Two bins of which the first is zero in observation and baseline. *)
Definition with_zero_bin : list f64 := [zero; one].

(** A baseline whose first bin is zero, under a positive observation. *)
Definition obs_positive : list f64 := [one; two].
Definition base_zero_bin : list f64 := [zero; one].

(** The outside as the number of calls made on it. *)
Definition gain_found : f64 := of_decimal false 25 (-1).

Definition device_lost : exn := Exn LibUSBError "device not found".

Definition search_ok (c : sdr_class) (o : nat)
    : (list f64 * result f64) * nat :=
  (([one; gain_found], Ok gain_found), S o).

Definition search_fails (c : sdr_class) (o : nat)
    : (list f64 * result f64) * nat :=
  (([one], Raise device_lost), S o).

Definition freq3 : list f64 :=
  [of_decimal false 14194 5; of_decimal false 14204 5;
   of_decimal false 14214 5].

(** A recorder that returns the baseline on odd calls and the observation
    on even ones. *)
Definition record_ok (c : sdr_class) (g : f64) (o : nat)
    : result (list f64 * list f64) * nat :=
  (Ok (freq3, if Nat.even o then obs3 else base3), S o).

Definition record_fails (c : sdr_class) (g : f64) (o : nat)
    : result (list f64 * list f64) * nat :=
  (Raise device_lost, S o).

Definition record_flat (c : sdr_class) (g : f64) (o : nat)
    : result (list f64 * list f64) * nat :=
  (Ok (freq3, base3), S o).

Definition record_short (c : sdr_class) (g : f64) (o : nat)
    : result (list f64 * list f64) * nat :=
  (Ok (freq3, base2), S o).

Definition plot_ok (freq_hz spectrum : list f64) : result unit := Ok tt.

(** An object as [__init__] leaves it, and one after a calibration. *)
Definition unprepared : App.world nat :=
  App.World (init_fields true) [] 0%nat.

Definition prepared : App.world nat :=
  App.World
    {| _sdr_class := MockRtlSdrClass;
       _optimal_gain := Some gain_found;
       _baseline_power_spectrum := Some base3 |}
    [] 2%nat.

Definition clicks : list button :=
  [ButtonObserve; ButtonPrepare; ButtonObserve; ButtonClear; ButtonExit;
   ButtonPrepare].

End AppSamples.

(* ===================================================================== *)
(** * Rounding *)
(* ===================================================================== *)

Import F64 Py SdrWrapper Tabletop.

Lemma shift_nonneg n : 0 <= shift n.
Proof. unfold shift. lia. Qed.

Lemma shift_mono a b : a <= b -> shift a <= shift b.
Proof.
  intros H. unfold shift.
  pose proof (Z.log2_le_mono a b H). lia.
Qed.

Lemma pow_shift_pos n : 0 < 2 ^ shift n.
Proof. apply Z.pow_pos_nonneg; [lia | apply shift_nonneg]. Qed.

Lemma pow_shift_le q : 1 <= q -> 2 ^ shift q <= q.
Proof.
  intros H.
  assert (Hl := Z.log2_nonneg q).
  destruct (Z.log2_spec q ltac:(lia)) as [Hlo _].
  apply Z.le_trans with (2 ^ Z.log2 q); [| exact Hlo].
  apply Z.pow_le_mono_r; [lia |]. unfold shift. lia.
Qed.

Lemma unit_pos p d : 0 < d -> 0 < d * 2 ^ shift (p / d).
Proof. intros Hd. apply Z.mul_pos_pos; [exact Hd | apply pow_shift_pos]. Qed.

(** The two candidates of the rounding. *)
Lemma round_ne_cases p d :
  0 < d ->
  exists k',
    round_ne p d =
      (if k' * 2 ^ shift (p / d) <? top
       then Some (k' * 2 ^ shift (p / d)) else None) /\
    (k' = p / (d * 2 ^ shift (p / d)) \/
     (k' = p / (d * 2 ^ shift (p / d)) + 1 /\
      p mod (d * 2 ^ shift (p / d)) <> 0)).
Proof.
  intros Hd. pose proof (unit_pos p d Hd) as Hu.
  unfold round_ne. cbv zeta.
  set (u := d * 2 ^ shift (p / d)) in *.
  destruct (2 * (p mod u) ?= u) eqn:E.
  - destruct (Z.even (p / u)).
    + eexists; split; [reflexivity | left; reflexivity].
    + eexists; split; [reflexivity | right; split; [reflexivity |]].
      intros H0. rewrite H0 in E. apply Z.compare_eq in E. lia.
  - eexists; split; [reflexivity | left; reflexivity].
  - eexists; split; [reflexivity | right; split; [reflexivity |]].
    intros H0. rewrite H0 in E. rewrite Z.compare_gt_iff in E. lia.
Qed.

(** The rounded value is within half a spacing of the exact one: with
    [n * d] and [p] both scaled by [d], twice their distance is at most
    one spacing. *)
Lemma round_ne_nearest p d n :
  0 < d -> round_ne p d = Some n ->
  2 * Z.abs (n * d - p) <= d * 2 ^ shift (p / d).
Proof.
  intros Hd. pose proof (unit_pos p d Hd) as Hu.
  unfold round_ne. cbv zeta.
  set (j := shift (p / d)) in *. set (u := d * 2 ^ j) in *.
  pose proof (Z.div_mod p u ltac:(lia)) as Hdm.
  pose proof (Z.mod_pos_bound p u Hu) as Hm.
  set (k := p / u) in *. set (r := p mod u) in *.
  assert (Hk : forall k', k' * 2 ^ j * d = k' * u) by (intros; unfold u; ring).
  destruct (Z.compare_spec (2 * r) u) as [E | E | E];
    [destruct (Z.even k) | |];
    (destruct (_ <? top); [| discriminate]);
    intros H; injection H as <-; rewrite Hk; lia.
Qed.

Lemma representable_divides b j :
  representable b -> 0 <= j <= shift b -> b mod 2 ^ j = 0.
Proof.
  intros [_ Hb] Hj.
  apply Z.mod_divide in Hb; [| pose proof (pow_shift_pos b); lia].
  apply Z.mod_divide; [assert (0 < 2 ^ j) by (apply Z.pow_pos_nonneg; lia); lia |].
  apply Z.divide_trans with (2 ^ shift b); [| exact Hb].
  exists (2 ^ (shift b - j)). rewrite <- Z.pow_add_r by lia.
  f_equal. lia.
Qed.

(** A representable bound above the exact value bounds the rounded one:
    rounding never jumps over a representable number. *)
Lemma round_ne_upper p d b :
  0 < d -> 0 <= p -> representable b -> p <= b * d ->
  exists n, round_ne p d = Some n /\ 0 <= n <= b.
Proof.
  intros Hd Hp Hb Hle.
  assert (Hq0 : 0 <= p / d) by (apply Z.div_pos; lia).
  assert (Hqb : p / d <= b).
  { apply Z.div_le_upper_bound; [exact Hd | lia]. }
  pose proof (shift_mono _ _ Hqb) as Hj.
  pose proof (shift_nonneg (p / d)) as Hj0.
  pose proof (pow_shift_pos (p / d)) as H2j.
  pose proof (unit_pos p d Hd) as Hu.
  pose proof (representable_divides b (shift (p / d)) Hb (conj Hj0 Hj)) as Hdiv.
  destruct (round_ne_cases p d Hd) as [k' [Hr Hk]].
  set (j := shift (p / d)) in *. set (u := d * 2 ^ j) in *.
  apply Z.div_exact in Hdiv; [| lia].
  set (c := b / 2 ^ j) in *.
  assert (Hpu : p <= c * u).
  { unfold u. rewrite Hdiv in Hle. lia. }
  assert (Hk0 : 0 <= p / u) by (apply Z.div_pos; lia).
  assert (Hkc : p / u <= c).
  { apply Z.div_le_upper_bound; [exact Hu | lia]. }
  assert (Hk'c : 0 <= k' <= c).
  { destruct Hk as [-> | [-> Hne]]; [lia |].
    split; [lia |].
    destruct (Z.eq_dec (p / u) c) as [E | E]; [| lia].
    exfalso.
    pose proof (Z.div_mod p u ltac:(lia)) as Hdm.
    pose proof (Z.mod_pos_bound p u Hu) as Hm.
    rewrite E in Hdm. lia. }
  assert (Hn : 0 <= k' * 2 ^ j <= b).
  { rewrite Hdiv. split; [apply Z.mul_nonneg_nonneg; lia |].
    rewrite (Z.mul_comm (2 ^ j) c). apply Z.mul_le_mono_nonneg_r; lia. }
  exists (k' * 2 ^ j). split; [| exact Hn].
  rewrite Hr. destruct Hb as [[_ Hbt] _].
  destruct (Z.ltb_spec (k' * 2 ^ j) top); [reflexivity | lia].
Qed.

(** A value of at least one unit does not round to zero. *)
Lemma round_ne_pos p d n :
  0 < d -> d <= p -> round_ne p d = Some n -> 1 <= n.
Proof.
  intros Hd Hp Hr.
  assert (Hq : 1 <= p / d).
  { apply Z.div_le_lower_bound; lia. }
  pose proof (pow_shift_le _ Hq) as H2q.
  pose proof (pow_shift_pos (p / d)) as H2j.
  pose proof (unit_pos p d Hd) as Hu.
  destruct (round_ne_cases p d Hd) as [k' [Hr' Hk]].
  rewrite Hr' in Hr.
  set (j := shift (p / d)) in *. set (u := d * 2 ^ j) in *.
  assert (Hup : u <= p).
  { unfold u. pose proof (Z.mul_div_le p d Hd).
    apply Z.le_trans with (d * (p / d)); [| lia].
    apply Z.mul_le_mono_nonneg_l; lia. }
  assert (Hk1 : 1 <= p / u).
  { apply Z.div_le_lower_bound; lia. }
  assert (1 <= k') by (destruct Hk as [-> | [-> _]]; lia).
  destruct (k' * 2 ^ j <? top); [| discriminate].
  injection Hr as <-. nia.
Qed.

Lemma significand_bound q :
  0 <= q -> q / 2 ^ shift q < 2 ^ 53.
Proof.
  intros Hq.
  destruct (Z.eq_dec q 0) as [-> | Hne].
  { rewrite Z.div_0_l; [reflexivity | pose proof (pow_shift_pos 0); lia]. }
  destruct (Z.log2_spec q ltac:(lia)) as [_ Hhi].
  pose proof (Z.log2_nonneg q) as Hl.
  pose proof (pow_shift_pos q) as H2j.
  apply Z.div_lt_upper_bound; [exact H2j |].
  rewrite <- Z.pow_add_r; [| apply shift_nonneg | lia].
  apply Z.lt_le_trans with (2 ^ Z.succ (Z.log2 q)); [exact Hhi |].
  apply Z.pow_le_mono_r; [lia |]. unfold shift. lia.
Qed.

(** The result of a rounding is a binary64 magnitude. *)
Lemma round_ne_representable p d n :
  0 < d -> 0 <= p -> round_ne p d = Some n -> representable n.
Proof.
  intros Hd Hp Hr.
  assert (Hq0 : 0 <= p / d) by (apply Z.div_pos; lia).
  pose proof (shift_nonneg (p / d)) as Hj0.
  pose proof (pow_shift_pos (p / d)) as H2j.
  pose proof (unit_pos p d Hd) as Hu.
  pose proof (significand_bound _ Hq0) as Hsig.
  destruct (round_ne_cases p d Hd) as [k' [Hr' Hk]].
  rewrite Hr' in Hr. clear Hr'.
  rewrite <- Z.div_div in Hk by lia.
  set (j := shift (p / d)) in *.
  assert (Hk0 : 0 <= p / d / 2 ^ j) by (apply Z.div_pos; lia).
  assert (Hk' : 0 <= k' <= 2 ^ 53).
  { destruct Hk as [-> | [-> _]]; lia. }
  destruct (Z.ltb_spec (k' * 2 ^ j) top) as [Ht |]; [| discriminate].
  injection Hr as <-.
  split; [split; [apply Z.mul_nonneg_nonneg; lia | exact Ht] |].
  destruct (Z.eq_dec k' 0) as [-> | Hk'0].
  { rewrite Z.mul_0_l. apply Z.mod_0_l. pose proof (pow_shift_pos 0). lia. }
  destruct (Z.eq_dec k' (2 ^ 53)) as [-> | Hk'1].
  - rewrite <- Z.pow_add_r by lia.
    assert (Hs : shift (2 ^ (53 + j)) = j + 1).
    { unfold shift. rewrite Z.log2_pow2 by lia. lia. }
    rewrite Hs. apply Z.mod_divide.
    { assert (0 < 2 ^ (j + 1)) by (apply Z.pow_pos_nonneg; lia). lia. }
    exists (2 ^ 52). rewrite <- Z.pow_add_r by lia. f_equal. lia.
  - assert (Hlog : Z.log2 (k' * 2 ^ j) = j + Z.log2 k').
    { apply Z.log2_mul_pow2; lia. }
    assert (Hlk : Z.log2 k' < 53).
    { apply Z.log2_lt_pow2; lia. }
    assert (Hs : 0 <= shift (k' * 2 ^ j) <= j).
    { unfold shift. rewrite Hlog. lia. }
    apply Z.mod_divide.
    { assert (0 < 2 ^ shift (k' * 2 ^ j)) by (apply pow_shift_pos). lia. }
    apply Z.divide_mul_r.
    exists (2 ^ (j - shift (k' * 2 ^ j))).
    rewrite <- Z.pow_add_r by lia. f_equal. lia.
Qed.

(** A representable value rounds to itself. *)
Lemma round_ne_exact n d :
  0 < d -> representable n -> round_ne (n * d) d = Some n.
Proof.
  intros Hd Hn.
  pose proof (representable_divides n (shift n) Hn
                (conj (shift_nonneg n) (Z.le_refl _))) as Hdiv.
  pose proof (pow_shift_pos n) as H2j.
  destruct Hn as [[Hn0 Hnt] _].
  unfold round_ne. cbv zeta.
  rewrite Z.div_mul by lia.
  apply Z.div_exact in Hdiv; [| lia].
  set (j := shift n) in *. set (c := n / 2 ^ j) in *.
  assert (Hp : n * d = c * (d * 2 ^ j)) by (rewrite Hdiv at 1; ring).
  rewrite Hp.
  assert (Hu : 0 < d * 2 ^ j) by (apply Z.mul_pos_pos; lia).
  rewrite Z.mod_mul by lia. rewrite Z.div_mul by lia.
  rewrite Z.mul_0_r.
  assert (E : (0 ?= d * 2 ^ j) = Lt) by (apply Z.compare_lt_iff; exact Hu).
  rewrite E.
  assert (Hc : c * 2 ^ j = n) by (rewrite Z.mul_comm; symmetry; exact Hdiv).
  rewrite Hc.
  destruct (Z.ltb_spec n top); [reflexivity | lia].
Qed.

(* ===================================================================== *)
(** * Arithmetic on non-negative values *)
(* ===================================================================== *)

Lemma grid_pos : 0 < grid.
Proof. unfold grid. apply Z.pow_pos_nonneg; lia. Qed.

Lemma representableb_spec n : representableb n = true <-> representable n.
Proof.
  unfold representableb, representable.
  rewrite !andb_true_iff, Z.leb_le, Z.ltb_lt, Z.eqb_eq. tauto.
Qed.

Lemma representable_grid : representable grid.
Proof. apply representableb_spec. vm_compute. reflexivity. Qed.

Lemma representable_0 : representable 0.
Proof. apply representableb_spec. vm_compute. reflexivity. Qed.

Lemma positive_finite_inv x :
  positive_finite x = true ->
  exists n, x = Ffin false n /\ 0 < n /\ representable n.
Proof.
  destruct x as [| s | [|] n]; try discriminate.
  unfold positive_finite. rewrite andb_true_iff, Z.ltb_lt, representableb_spec.
  intros [H1 H2]. exists n. auto.
Qed.

Lemma fdiv_nonneg a b :
  0 < b ->
  fdiv (Ffin false a) (Ffin false b) = of_round false (round_ne (a * grid) b).
Proof.
  intros Hb. unfold fdiv.
  destruct (Z.eqb_spec b 0); [lia | reflexivity].
Qed.

(** A quotient of non-negative finite values is a non-negative finite
    value or the positive infinity. *)
Lemma fdiv_nonneg_shape a b :
  0 <= a -> 0 < b ->
  is_inf (fdiv (Ffin false a) (Ffin false b)) = false ->
  exists n, fdiv (Ffin false a) (Ffin false b) = Ffin false n /\
            representable n.
Proof.
  intros Ha Hb. rewrite (fdiv_nonneg a b Hb).
  pose proof grid_pos as Hg.
  destruct (round_ne (a * grid) b) as [n |] eqn:E; [| discriminate].
  intros _. exists n. split; [reflexivity |].
  apply (round_ne_representable (a * grid) b n Hb); [nia | exact E].
Qed.

Lemma fdiv_le a b :
  0 <= a <= b -> 0 < b ->
  exists n, fdiv (Ffin false a) (Ffin false b) = Ffin false n /\
            0 <= n <= grid.
Proof.
  intros Ha Hb. rewrite (fdiv_nonneg a b Hb).
  pose proof grid_pos as Hg.
  destruct (round_ne_upper (a * grid) b grid Hb) as [n [-> Hn]];
    [nia | apply representable_grid | nia |].
  exists n. split; [reflexivity | exact Hn].
Qed.

Lemma fdiv_self b : 0 < b -> fdiv (Ffin false b) (Ffin false b) = one.
Proof.
  intros Hb. rewrite (fdiv_nonneg b b Hb).
  rewrite (Z.mul_comm b grid).
  rewrite (round_ne_exact grid b Hb representable_grid). reflexivity.
Qed.

Lemma fdiv_zero b : 0 < b -> fdiv zero (Ffin false b) = zero.
Proof.
  intros Hb. unfold zero. rewrite (fdiv_nonneg 0 b Hb).
  rewrite Z.mul_0_l.
  destruct (round_ne_upper 0 b 0 Hb) as [n [-> Hn]];
    [lia | apply representable_0 | lia |].
  simpl. f_equal. lia.
Qed.

(** Subtracting a smaller non-negative value: finite, non-negative, and
    zero exactly when the operands are equal. *)
Lemma fsub_ge a b :
  representable a -> 0 <= b <= a ->
  exists c, fsub (Ffin false a) (Ffin false b) = Ffin false c /\
            representable c /\ (c = 0 <-> a = b).
Proof.
  intros Ha Hb. unfold fsub, fneg, fadd, signed. cbn [negb andb].
  destruct (Z.eqb_spec (a + - b) 0) as [E | E].
  - exists 0. split; [reflexivity |]. split; [apply representable_0 | lia].
  - destruct (Z.ltb_spec (a + - b) 0) as [L | L]; [lia |].
    rewrite Z.abs_eq by lia.
    destruct (round_ne_upper (a + - b) 1 a) as [n [Hr Hn]];
      [lia | lia | exact Ha | lia |].
    rewrite Hr. exists n. split; [reflexivity |].
    split; [apply (round_ne_representable (a + - b) 1 n); [lia | lia | exact Hr] |].
    pose proof (round_ne_pos (a + - b) 1 n ltac:(lia) ltac:(lia) Hr). lia.
Qed.

Lemma in_unit_fin o : 0 <= o <= grid -> in_unit_interval (Ffin false o) = true.
Proof.
  intros [H0 H1].
  unfold in_unit_interval, fle, fcompare, zero, one, signed.
  destruct (Z.compare_spec 0 o); destruct (Z.compare_spec o grid);
    try reflexivity; lia.
Qed.


(* ===================================================================== *)
(** * The normalisation *)
(* ===================================================================== *)

Lemma fmin_fin a b : fmin (Ffin false a) (Ffin false b) = Ffin false (Z.min a b).
Proof.
  unfold fmin, flt, fcompare, signed, is_nan. rewrite orb_false_r.
  destruct (Z.compare_spec a b); f_equal; lia.
Qed.

Lemma fmax_fin a b : fmax (Ffin false a) (Ffin false b) = Ffin false (Z.max a b).
Proof.
  unfold fmax, flt, fcompare, signed, is_nan. rewrite orb_false_r.
  destruct (Z.compare_spec b a); f_equal; lia.
Qed.

Lemma fold_fmin_fin ns n :
  fold_left fmin (map (Ffin false) ns) (Ffin false n)
  = Ffin false (fold_left Z.min ns n).
Proof.
  revert n. induction ns as [| a ns IH]; intros n; [reflexivity |].
  cbn [map fold_left]. rewrite fmin_fin. apply IH.
Qed.

Lemma fold_fmax_fin ns n :
  fold_left fmax (map (Ffin false) ns) (Ffin false n)
  = Ffin false (fold_left Z.max ns n).
Proof.
  revert n. induction ns as [| a ns IH]; intros n; [reflexivity |].
  cbn [map fold_left]. rewrite fmax_fin. apply IH.
Qed.

Lemma fold_min_spec ns n :
  In (fold_left Z.min ns n) (n :: ns) /\
  forall y, In y (n :: ns) -> fold_left Z.min ns n <= y.
Proof.
  revert n. induction ns as [| a ns IH]; intros n.
  - cbn. split; [auto |]. intros y [<- | []]. lia.
  - cbn [fold_left]. destruct (IH (Z.min n a)) as [Hin Hle]. split.
    + destruct Hin as [E | Hin]; [| right; right; exact Hin].
      rewrite <- E. destruct (Z.min_spec n a) as [[_ ->] | [_ ->]];
        [left | right; left]; reflexivity.
    + intros y Hy.
      pose proof (Hle (Z.min n a) (or_introl eq_refl)).
      destruct Hy as [<- | [<- | Hy]]; [lia | lia |].
      apply Hle. right. exact Hy.
Qed.

Lemma fold_max_spec ns n :
  In (fold_left Z.max ns n) (n :: ns) /\
  forall y, In y (n :: ns) -> y <= fold_left Z.max ns n.
Proof.
  revert n. induction ns as [| a ns IH]; intros n.
  - cbn. split; [auto |]. intros y [<- | []]. lia.
  - cbn [fold_left]. destruct (IH (Z.max n a)) as [Hin Hle]. split.
    + destruct Hin as [E | Hin]; [| right; right; exact Hin].
      rewrite <- E. destruct (Z.max_spec n a) as [[_ ->] | [_ ->]];
        [right; left | left]; reflexivity.
    + intros y Hy.
      pose proof (Hle (Z.max n a) (or_introl eq_refl)).
      destruct Hy as [<- | [<- | Hy]]; [lia | lia |].
      apply Hle. right. exact Hy.
Qed.

(** An array of non-negative finite values is the image of its
    magnitudes. *)
Lemma nonneg_array (a : list f64) :
  Forall (fun x => exists n, x = Ffin false n /\ representable n) a ->
  exists ns, a = map (Ffin false) ns /\ Forall representable ns.
Proof.
  induction 1 as [| x l [n [-> Hn]] _ [ns [-> Hns]]].
  - exists []. split; [reflexivity | constructor].
  - exists (n :: ns). split; [reflexivity | constructor; assumption].
Qed.

Lemma f64_eqb_refl x : f64_eqb x x = true.
Proof.
  destruct x as [| s | s n]; cbn; [reflexivity | apply eqb_reflx |].
  rewrite eqb_reflx, Z.eqb_refl. reflexivity.
Qed.

Lemma all_equal_constant ns m :
  (forall n, In n ns -> n = m) -> all_equal (map (Ffin false) ns) = true.
Proof.
  intros H. destruct ns as [| n0 ns]; [reflexivity |].
  cbn [map all_equal]. apply forallb_forall. intros x Hx.
  apply in_map_iff in Hx. destruct Hx as [n [<- Hn]].
  rewrite (H n0 (or_introl eq_refl)), (H n (or_intror Hn)).
  apply f64_eqb_refl.
Qed.

Lemma np_divide_same_length a b :
  List.length a = List.length b ->
  np_divide a b = Ok (map (fun xy => fdiv (fst xy) (snd xy)) (combine a b)).
Proof.
  intros H. unfold np_divide. rewrite H, Nat.eqb_refl. reflexivity.
Qed.

Lemma ratio_nonneg a b :
  Forall (fun x => positive_finite x = true) a ->
  Forall (fun x => positive_finite x = true) b ->
  Forall (fun x => is_inf x = false)
         (map (fun xy => fdiv (fst xy) (snd xy)) (combine a b)) ->
  Forall (fun x => exists n, x = Ffin false n /\ representable n)
         (map (fun xy => fdiv (fst xy) (snd xy)) (combine a b)).
Proof.
  intros Ha. revert b. induction Ha as [| x a Hx Ha IH]; intros b Hb Hfin.
  - constructor.
  - destruct Hb as [| y b Hy Hb]; [constructor |].
    cbn [combine map fst snd] in *. inversion Hfin as [| ? ? Hf Hfin']; subst.
    constructor; [| apply IH; assumption].
    destruct (positive_finite_inv x Hx) as [n [-> [Hn _]]].
    destruct (positive_finite_inv y Hy) as [m [-> [Hm _]]].
    apply fdiv_nonneg_shape; [lia | lia | exact Hf].
Qed.


Lemma rescale_range ns :
  Forall representable ns ->
  all_equal (map (Ffin false) ns) = false ->
  exists out,
    rescale (map (Ffin false) ns) = Ok out /\
    List.length out = List.length ns /\
    Forall (fun x => in_unit_interval x = true) out /\
    In zero out /\ In one out.
Proof.
  intros Hrep Hne.
  destruct ns as [| n0 ns']; [discriminate |].
  set (ns := n0 :: ns') in *.
  set (m := fold_left Z.min ns' n0).
  destruct (fold_min_spec ns' n0) as [Hm_in Hm_le]. fold m ns in Hm_in, Hm_le.
  set (g := fun n => mag_of (fsub (Ffin false n) (Ffin false m))).
  assert (Hg : forall n, In n ns ->
             fsub (Ffin false n) (Ffin false m) = Ffin false (g n) /\
             representable (g n) /\ (g n = 0 <-> n = m)).
  { intros n Hn.
    rewrite Forall_forall in Hrep.
    destruct (fsub_ge n m (Hrep n Hn)) as [c [Hc [Hc1 Hc2]]].
    - split; [| apply Hm_le; exact Hn].
      destruct (Hrep m Hm_in) as [[? _] _]. assumption.
    - unfold g. rewrite Hc. cbn [mag_of]. auto. }
  assert (Hshift : map (fun x => fsub x (Ffin false m)) (map (Ffin false) ns)
                   = map (Ffin false) (map g ns)).
  { rewrite !map_map. apply map_ext_in. intros n Hn. apply (Hg n Hn). }
  set (M := fold_left Z.max (map g ns') (g n0)).
  destruct (fold_max_spec (map g ns') (g n0)) as [HM_in HM_le].
  change (g n0 :: map g ns') with (map g ns) in HM_in, HM_le. fold M in HM_in, HM_le.
  assert (Hcs : forall c, In c (map g ns) -> 0 <= c <= M).
  { intros c Hc. split; [| apply HM_le; exact Hc].
    apply in_map_iff in Hc. destruct Hc as [n [<- Hn]].
    destruct (Hg n Hn) as [_ [[[? _] _] _]]. assumption. }
  assert (HM : 0 < M).
  { destruct (Z_lt_le_dec 0 M) as [? | HM0]; [assumption | exfalso].
    rewrite (all_equal_constant ns m) in Hne; [discriminate |].
    intros n Hn. apply (Hg n Hn).
    pose proof (Hcs (g n) (in_map g ns n Hn)). lia. }
  unfold rescale.
  assert (Hmin : np_min (map (Ffin false) ns) = Ok (Ffin false m)).
  { unfold ns. cbn [map np_min]. rewrite fold_fmin_fin. reflexivity. }
  rewrite Hmin. cbn [bind]. rewrite Hshift.
  assert (Hmax : np_max (map (Ffin false) (map g ns)) = Ok (Ffin false M)).
  { unfold ns. cbn [map np_max]. rewrite fold_fmax_fin. reflexivity. }
  rewrite Hmax. cbn [bind].
  eexists. split; [reflexivity |].
  split; [rewrite !length_map; reflexivity |].
  split; [| split].
  - apply Forall_forall. intros x Hx.
    apply in_map_iff in Hx. destruct Hx as [y [<- Hy]].
    apply in_map_iff in Hy. destruct Hy as [c [<- Hc]].
    destruct (fdiv_le c M (Hcs c Hc) HM) as [o [-> Ho]].
    apply in_unit_fin. exact Ho.
  - apply in_map_iff. exists zero. split; [apply fdiv_zero; exact HM |].
    apply in_map_iff. exists (g m). split.
    + destruct (Hg m Hm_in) as [_ [_ Hz]]. unfold zero. f_equal.
      apply Hz. reflexivity.
    + apply in_map. exact Hm_in.
  - apply in_map_iff. exists (Ffin false M). split; [apply fdiv_self; exact HM |].
    apply in_map. exact HM_in.
Qed.

Lemma f64_eqb_eq x y : f64_eqb x y = true -> x = y.
Proof.
  destruct x as [| a | a n], y as [| b | b m]; cbn; try discriminate.
  - reflexivity.
  - intros H. apply eqb_prop in H. congruence.
  - rewrite andb_true_iff, Z.eqb_eq. intros [H ->].
    apply eqb_prop in H. congruence.
Qed.

Lemma all_equal_inv r l :
  all_equal (r :: l) = true -> r :: l = map (fun _ => r) (r :: l).
Proof.
  cbn [all_equal map]. intros H. f_equal.
  rewrite forallb_forall in H.
  induction l as [| x l IH]; [reflexivity |].
  cbn [map]. f_equal.
  - symmetry. apply f64_eqb_eq, H. left. reflexivity.
  - apply IH. intros y Hy. apply H. right. exact Hy.
Qed.

Lemma fmin_same r : fmin r r = r.
Proof. unfold fmin. destruct (flt r r || is_nan r); reflexivity. Qed.

Lemma fmax_same r : fmax r r = r.
Proof. unfold fmax. destruct (flt r r || is_nan r); reflexivity. Qed.

Lemma fold_fmin_constant {A} (l : list A) r :
  fold_left fmin (map (fun _ => r) l) r = r.
Proof.
  induction l as [| x l IH]; [reflexivity |].
  cbn [map fold_left]. rewrite fmin_same. exact IH.
Qed.

Lemma fold_fmax_constant {A} (l : list A) r :
  fold_left fmax (map (fun _ => r) l) r = r.
Proof.
  induction l as [| x l IH]; [reflexivity |].
  cbn [map fold_left]. rewrite fmax_same. exact IH.
Qed.

(** [(r - r) / (r - r)] is a NaN, whatever [r] is. *)
Lemma zero_range_quotient r : fdiv (fsub r r) (fsub r r) = Fnan.
Proof.
  destruct r as [| s | s n]; [reflexivity | destruct s; reflexivity |].
  unfold fsub, fneg, fadd, signed.
  assert (E : (if s then - n else n) + (if negb s then - n else n) = 0)
    by (destruct s; cbn [negb]; lia).
  rewrite E. cbn. reflexivity.
Qed.

Lemma rescale_constant r (l : list f64) :
  rescale (map (fun _ => r) (r :: l)) = Ok (map (fun _ => Fnan) (r :: l)).
Proof.
  unfold rescale. cbn [map np_min]. rewrite fold_fmin_constant. cbn [bind].
  rewrite map_map. cbn [np_max]. rewrite fold_fmax_constant. cbn [bind map].
  rewrite map_map, zero_range_quotient. reflexivity.
Qed.

Lemma forallb_Forall {A} (f : A -> bool) l :
  forallb f l = true -> Forall (fun x => f x = true) l.
Proof. intros H. apply Forall_forall. apply forallb_forall. exact H. Qed.

(** C2, as amended: for two arrays of one length whose elements are
    strictly positive finite values, whose element-wise ratio has no
    element out of range (none is an infinity) and is not all-equal, the
    normalisation returns an array of that length whose elements all lie
    in [0, 1], one of them equal to 0.0 and one equal to 1.0. *)
Theorem normalise_unit_range (obs base ratio : list f64) :
  List.length obs = List.length base ->
  forallb positive_finite obs = true ->
  forallb positive_finite base = true ->
  np_divide obs base = Ok ratio ->
  existsb is_inf ratio = false ->
  all_equal ratio = false ->
  exists out,
    normalise obs base = Ok out /\
    List.length out = List.length obs /\
    forallb in_unit_interval out = true /\
    In zero out /\ In one out.
Proof.
  intros Hlen Hobs Hbase Hdiv Hfin Hne.
  unfold normalise. rewrite Hdiv. cbn [bind].
  rewrite (np_divide_same_length obs base Hlen) in Hdiv.
  injection Hdiv as <-.
  assert (Hfin' : Forall (fun x => is_inf x = false)
            (map (fun xy => fdiv (fst xy) (snd xy)) (combine obs base))).
  { apply Forall_forall. intros x Hx.
    destruct (is_inf x) eqn:E; [| reflexivity].
    assert (existsb is_inf
              (map (fun xy => fdiv (fst xy) (snd xy)) (combine obs base)) = true)
      by (apply existsb_exists; exists x; auto).
    congruence. }
  destruct (nonneg_array _
              (ratio_nonneg obs base (forallb_Forall _ _ Hobs)
                 (forallb_Forall _ _ Hbase) Hfin')) as [ns [Hns Hrep]].
  assert (Hl : List.length ns = List.length obs).
  { rewrite <- (length_map (Ffin false) ns), <- Hns, length_map, length_combine.
    rewrite <- Hlen. apply Nat.min_id. }
  rewrite Hns in Hne |- *.
  destruct (rescale_range ns Hrep Hne) as [out [H1 [H2 [H3 [H4 H5]]]]].
  exists out. repeat split; try assumption.
  - congruence.
  - apply forallb_forall. rewrite Forall_forall in H3. exact H3.
Qed.

Lemma normalise_unit_range_witness :
  exists out,
    normalise Samples.obs3 Samples.base3 = Ok out /\
    List.length out = List.length Samples.obs3 /\
    forallb in_unit_interval out = true /\
    In zero out /\ In one out.
Proof.
  apply (normalise_unit_range Samples.obs3 Samples.base3 Samples.ratio3);
    vm_compute; reflexivity.
Defined.

(** C2 as stated fails where a ratio overflows: 1e300 / 1e-300 is the
    positive infinity, the maximum after the subtraction is that infinity,
    and infinity / infinity is a NaN.  The inputs are of one length and
    strictly positive, the ratio is not all-equal, and the output holds a
    NaN and no 1.0. *)
Lemma normalise_overflow :
  List.length Samples.obs_huge = List.length Samples.base_tiny /\
  forallb positive_finite Samples.obs_huge = true /\
  forallb positive_finite Samples.base_tiny = true /\
  np_divide Samples.obs_huge Samples.base_tiny = Ok [Finf false; one] /\
  all_equal [Finf false; one] = false /\
  normalise Samples.obs_huge Samples.base_tiny = Ok [Fnan; zero] /\
  forallb in_unit_interval [Fnan; zero] = false /\
  ~ In one [Fnan; zero].
Proof.
  do 7 (split; [vm_compute; reflexivity |]).
  intros [H | [H | []]]; [discriminate |].
  injection H as H. pose proof grid_pos. lia.
Qed.


Lemma np_divide_stretch_right a y :
  List.length a <> 1%nat ->
  np_divide a [y] = np_divide a (repeat y (List.length a)).
Proof.
  intros H.
  rewrite (np_divide_same_length a (repeat y (List.length a)))
    by (rewrite repeat_length; reflexivity).
  unfold np_divide. destruct (Nat.eqb_spec (List.length a) (List.length [y])) as [E | E];
    [cbn in E; congruence |].
  assert (Hm : forall l : list f64,
             map (fun x => fdiv x y) l
             = map (fun xy => fdiv (fst xy) (snd xy))
                   (combine l (repeat y (List.length l)))).
  { induction l as [| x l IH]; [reflexivity |]. cbn. f_equal. exact IH. }
  destruct a as [| x [| x' a]]; [reflexivity | cbn in H; congruence |].
  rewrite <- Hm. reflexivity.
Qed.

Lemma np_divide_stretch_left x b :
  List.length b <> 1%nat ->
  np_divide [x] b = np_divide (repeat x (List.length b)) b.
Proof.
  intros H.
  rewrite (np_divide_same_length (repeat x (List.length b)) b)
    by (rewrite repeat_length; reflexivity).
  unfold np_divide. destruct (Nat.eqb_spec (List.length [x]) (List.length b)) as [E | E];
    [cbn in E; congruence |].
  f_equal. clear. induction b as [| y b IH]; [reflexivity |].
  cbn. f_equal. exact IH.
Qed.

(** C7, as amended: when the element-wise ratio is not empty and
    all-equal, nothing detects it: the normalisation returns, without an
    exception, an array of the length of the ratio whose every element is
    a NaN. *)
Theorem normalise_degenerate (obs base ratio : list f64) :
  np_divide obs base = Ok ratio ->
  ratio <> [] ->
  all_equal ratio = true ->
  normalise obs base = Ok (map (fun _ => Fnan) ratio).
Proof.
  intros Hdiv Hne Heq. unfold normalise. rewrite Hdiv. cbn [bind].
  destruct ratio as [| r l]; [congruence |].
  rewrite (all_equal_inv r l Heq) at 1. apply rescale_constant.
Qed.

Lemma normalise_degenerate_witness :
  normalise Samples.flat2 Samples.flat2
  = Ok (map (fun _ => Fnan) [one; one]).
Proof.
  apply (normalise_degenerate Samples.flat2 Samples.flat2 [one; one]).
  - vm_compute. reflexivity.
  - discriminate.
  - vm_compute. reflexivity.
Defined.

(** C7 as stated fails on a flat spectrum over a flat baseline: the ratio
    is all-equal, no exception is raised, and the array returned is made
    of NaNs. *)
Lemma normalise_flat_is_nan :
  np_divide Samples.flat2 Samples.flat2 = Ok [one; one] /\
  all_equal [one; one] = true /\
  normalise Samples.flat2 Samples.flat2 = Ok [Fnan; Fnan] /\
  existsb is_nan [Fnan; Fnan] = true.
Proof. do 3 (split; [vm_compute; reflexivity |]). reflexivity. Qed.

(** C6, as amended: for arrays of unequal length neither of which has
    length one, the normalisation raises numpy's [ValueError] for shapes
    that cannot be broadcast and returns no array; an array of length one
    is stretched to the length of the other, as if its element were
    repeated, and no exception reports the mismatch. *)
Theorem normalise_length_mismatch (obs base : list f64) :
  List.length obs <> List.length base ->
  (List.length obs <> 1%nat -> List.length base <> 1%nat ->
   normalise obs base =
     Raise (Exn ValueError
       ("operands could not be broadcast together with shapes "
        ++ shape_str (List.length obs) ++ " "
        ++ shape_str (List.length base) ++ " "))) /\
  (forall y, base = [y] ->
   normalise obs base = normalise obs (repeat y (List.length obs))) /\
  (forall x, obs = [x] ->
   normalise obs base = normalise (repeat x (List.length base)) base).
Proof.
  intros Hne. split; [| split].
  - intros Ho Hb. unfold normalise, np_divide.
    destruct (Nat.eqb_spec (List.length obs) (List.length base)); [contradiction |].
    destruct obs as [| x [| x' obs]]; [| cbn in Ho; congruence |];
      (destruct base as [| y [| y' base]];
       [cbn in Hne; try congruence; reflexivity | cbn in Hb; congruence | reflexivity]).
  - intros y ->. unfold normalise. rewrite np_divide_stretch_right; [reflexivity |].
    exact Hne.
  - intros x ->. unfold normalise. rewrite np_divide_stretch_left; [reflexivity |].
    intros E. apply Hne. rewrite E. reflexivity.
Qed.

Lemma normalise_length_mismatch_witness :
  normalise Samples.obs3 Samples.base2 =
    Raise (Exn ValueError
      "operands could not be broadcast together with shapes (3,) (2,) ").
Proof.
  apply (proj1 (normalise_length_mismatch Samples.obs3 Samples.base2
                  ltac:(discriminate)));
    discriminate.
Defined.

(** C6 as stated fails when one array has length one: two bins over a
    baseline of one bin are normalised without any exception. *)
Lemma normalise_broadcasts :
  List.length Samples.obs2 <> List.length Samples.base1 /\
  normalise Samples.obs2 Samples.base1 = Ok [zero; one].
Proof. split; [discriminate | vm_compute; reflexivity]. Qed.


(* ===================================================================== *)
(** * The SDR wrapper *)
(* ===================================================================== *)

Lemma max_read_samples_value : MAX_READ_SAMPLES = 16777216.
Proof. reflexivity. Qed.

Lemma draws_length {rng} (gauss : rng -> f64 * rng) k scale g :
  List.length (fst (draws gauss k scale g)) = k.
Proof.
  revert g. induction k as [| k IH]; intros g; [reflexivity |].
  cbn [draws]. destruct (gauss g) as [z g1].
  specialize (IH g1). destruct (draws gauss k scale g1) as [zs g2].
  cbn [fst List.length] in *. rewrite IH. reflexivity.
Qed.

Lemma to_complex_length real imag :
  List.length (to_complex real imag)
  = Nat.min (List.length real) (List.length imag).
Proof. unfold to_complex. rewrite length_map. apply length_combine. Qed.

Lemma signbit_of_round s r : signbit (of_round s r) = s.
Proof. destruct r; reflexivity. Qed.

Lemma signbit_of_decimal s m e : signbit (of_decimal s m e) = s.
Proof.
  unfold of_decimal. destruct (m =? 0); [reflexivity |].
  destruct (0 <=? e); apply signbit_of_round.
Qed.

Lemma signbit_fmul x y :
  signbit x = false -> signbit y = false -> signbit (fmul x y) = false.
Proof.
  intros Hx Hy.
  destruct x as [| sx | sx n], y as [| sy | sy m]; cbn [signbit] in Hx, Hy;
    subst; cbn [fmul xorb]; try reflexivity.
  - destruct (m =? 0); reflexivity.
  - destruct (n =? 0); reflexivity.
  - apply signbit_of_round.
Qed.

Lemma np_random_normal_accepts {rng} (gauss : rng -> f64 * rng) n scale w :
  signbit scale = false ->
  np_random_normal gauss n scale w
  = (Ok (fst (draws gauss (Z.to_nat n) scale (rand w))),
     World (self_obj w) (snd (draws gauss (Z.to_nat n) scale (rand w)))).
Proof.
  intros H. unfold np_random_normal. rewrite H. cbn [andb].
  destruct (draws gauss (Z.to_nat n) scale (rand w)); reflexivity.
Qed.

(** The scale of a device whose gain is acceptable. *)
Lemma scale_accepted dev :
  gain_ok (gain dev) = true ->
  exists scale,
    float_times (of_decimal false 1 (-2)) (get_gain dev) = Ok scale /\
    signbit scale = false.
Proof.
  unfold gain_ok, get_gain, gain_eq_str.
  destruct (gain dev) as [f | s]; intros H.
  - exists (fmul (of_decimal false 1 (-2)) f). split; [reflexivity |].
    apply signbit_fmul; [apply signbit_of_decimal |].
    destruct (signbit f); [discriminate | reflexivity].
  - rewrite H. exists (fmul (of_decimal false 1 (-2)) one).
    split; [reflexivity |].
    apply signbit_fmul; [apply signbit_of_decimal | reflexivity].
Qed.

Lemma read_samples_step {rng} (gauss : rng -> f64 * rng) x n w :
  int x = Ok n ->
  read_samples gauss x w =
    if negb (n >? 0) then (Raise too_few, w)
    else if n >? MAX_READ_SAMPLES
    then (Raise (no_mem n), w)
    else
      bindM (lift (float_times (of_decimal false 1 (-2))
                             (get_gain (self_obj w)))) (fun scale =>
      bindM (np_random_normal gauss n scale) (fun real =>
      bindM (np_random_normal gauss n scale) (fun imag =>
      ret (to_complex real imag)))) w.
Proof.
  intros H. unfold read_samples. unfold bindM at 1. unfold lift at 1.
  rewrite H.
  destruct (negb (n >? 0)); [reflexivity |].
  destruct (n >? MAX_READ_SAMPLES); reflexivity.
Qed.

(** Decide the tests of [read_samples] on the count from the bounds in
    the context. *)
Ltac settle_count :=
  rewrite ?max_read_samples_value in *;
  repeat match goal with
         | |- context [?a >? ?b] =>
             destruct (Z.gtb_spec a b); try lia; cbn [negb]
         end.

(** C1: for a count [x] with [int(x) = n], on a device whose gain is the
    sentinel or a float that is not negative: when [1 <= n <= 2^24],
    [read_samples(x)] returns a block of exactly [n] samples and leaves the
    device as it was; when [n <= 0], on any device, it raises the
    [ValueError] of a count that is not positive and returns no block. *)
Theorem read_samples_length {rng} (gauss : rng -> f64 * rng)
    (w : world rng) (x : num) (n : Z) :
  int x = Ok n ->
  (1 <= n <= 2 ^ 24 -> gain_ok (gain (self_obj w)) = true ->
   exists block g,
     read_samples gauss x w = (Ok block, World (self_obj w) g) /\
     Z.of_nat (List.length block) = n) /\
  (n <= 0 -> read_samples gauss x w = (Raise too_few, w)).
Proof.
  intros Hint. rewrite (read_samples_step gauss x n w Hint). split.
  - intros Hn Hg. change (2 ^ 24) with 16777216 in Hn. settle_count.
    destruct (scale_accepted _ Hg) as [scale [Hs Hsign]].
    unfold bindM at 1. unfold lift. rewrite Hs.
    unfold bindM at 1. rewrite (np_random_normal_accepts gauss n scale w Hsign).
    unfold bindM at 1. rewrite (np_random_normal_accepts gauss n scale _ Hsign).
    unfold ret. cbn [self_obj rand].
    eexists. eexists. split; [reflexivity |].
    rewrite to_complex_length, !draws_length, Nat.min_id. lia.
  - intros Hn. settle_count. reflexivity.
Qed.

Lemma read_samples_length_witness :
  exists block g,
    read_samples Samples.counter_gauss (PyInt 3) Samples.fresh
    = (Ok block, World init g) /\
    Z.of_nat (List.length block) = 3.
Proof.
  apply (proj1 (read_samples_length Samples.counter_gauss Samples.fresh
                  (PyInt 3) 3 eq_refl)).
  - split; discriminate.
  - reflexivity.
Defined.

(** C1 without the condition on the device fails: [gain] is a public
    attribute, and [parse_gain] itself returns -1.0 for "-1".  With the
    count 3, inside 1 .. 2^24, a gain of -1.0 or of -0.0 makes numpy
    refuse the scale, a text gain other than the sentinel makes
    [0.01 * gain] raise, and in each case no block is returned. *)
Lemma read_samples_refused_gain :
  int (PyInt 3) = Ok 3 /\
  1 <= 3 <= 2 ^ 24 /\
  parse_gain (PyStr "-1")
  = Ok (gain (self_obj AppSamples.negative_device)) /\
  read_samples Samples.counter_gauss (PyInt 3) AppSamples.negative_device
  = (Raise (Exn ValueError "scale < 0"), AppSamples.negative_device) /\
  read_samples Samples.counter_gauss (PyInt 3)
    AppSamples.negative_zero_device
  = (Raise (Exn ValueError "scale < 0"), AppSamples.negative_zero_device) /\
  read_samples Samples.counter_gauss (PyInt 3) AppSamples.manual_device
  = (Raise (Exn TypeError
              "can't multiply sequence by non-int of type 'float'"),
     AppSamples.manual_device).
Proof.
  split; [reflexivity |].
  split; [split; discriminate |].
  do 3 (split; [vm_compute; reflexivity |]).
  vm_compute; reflexivity.
Qed.


(** C4: for a count [x] with [int(x) = n > 2^24], [read_samples(x)] raises
    the [LibUSBError] that reports insufficient memory, an exception class
    other than the [ValueError] of a count that is not positive, and
    returns no block; the world is left as it was. *)
Theorem read_samples_over_limit {rng} (gauss : rng -> f64 * rng)
    (w : world rng) (x : num) (n : Z) :
  int x = Ok n -> n > 2 ^ 24 ->
  read_samples gauss x w = (Raise (no_mem n), w) /\
  exn_kind (no_mem n) = LibUSBError /\
  exn_class_eqb LibUSBError ValueError = false /\
  LibUSBError <> ValueError.
Proof.
  intros Hint Hn. change (2 ^ 24) with 16777216 in Hn.
  rewrite (read_samples_step gauss x n w Hint). settle_count.
  repeat split. discriminate.
Qed.

Lemma read_samples_over_limit_witness :
  read_samples Samples.counter_gauss (PyInt 16777217) Samples.fresh
  = (Raise (no_mem 16777217), Samples.fresh) /\
  exn_kind (no_mem 16777217) = LibUSBError /\
  exn_class_eqb LibUSBError ValueError = false /\
  LibUSBError <> ValueError.
Proof.
  apply (read_samples_over_limit Samples.counter_gauss Samples.fresh
           (PyInt 16777217) 16777217 eq_refl).
  reflexivity.
Defined.


(** C5: when the device has an effective gain [eff] in the
    specification's sense (1.0 for the sentinel, the float otherwise),
    [get_gain] returns it, and a read of a valid count draws its real and
    its imaginary parts with one scale, [0.01 * eff]. *)
Theorem read_samples_scale {rng} (gauss : rng -> f64 * rng)
    (w : world rng) (x : num) (n : Z) (eff : f64) :
  int x = Ok n -> 0 < n <= MAX_READ_SAMPLES ->
  spec_effective_gain (gain (self_obj w)) = Some eff ->
  get_gain (self_obj w) = GFloat eff /\
  read_samples gauss x w =
    bindM (np_random_normal gauss n (fmul (of_decimal false 1 (-2)) eff))
      (fun real =>
    bindM (np_random_normal gauss n (fmul (of_decimal false 1 (-2)) eff))
      (fun imag =>
    ret (to_complex real imag))) w.
Proof.
  intros Hint Hn Heff.
  assert (Hg : get_gain (self_obj w) = GFloat eff).
  { unfold get_gain, gain_eq_str. unfold spec_effective_gain in Heff.
    destruct (gain (self_obj w)) as [f | s]; [congruence |].
    destruct (String.eqb s "auto"); congruence. }
  split; [exact Hg |].
  rewrite (read_samples_step gauss x n w Hint), Hg. settle_count.
  reflexivity.
Qed.

Lemma read_samples_scale_witness :
  get_gain init = GFloat one /\
  read_samples Samples.counter_gauss (PyInt 3) Samples.fresh =
    bindM (np_random_normal Samples.counter_gauss 3
             (fmul (of_decimal false 1 (-2)) one)) (fun real =>
    bindM (np_random_normal Samples.counter_gauss 3
             (fmul (of_decimal false 1 (-2)) one)) (fun imag =>
    ret (to_complex real imag))) Samples.fresh.
Proof.
  apply (read_samples_scale Samples.counter_gauss Samples.fresh
           (PyInt 3) 3 one eq_refl).
  - split; [reflexivity | discriminate].
  - reflexivity.
Defined.


(** C10: [read_samples(x)] is [read_samples(int(x))]: the count is
    truncated toward zero before it is validated, and an exception of
    [int] is the exception of the read; a float strictly between 0.0 and
    1.0 truncates to 0 and raises the [ValueError] of a count that is not
    positive. *)
Theorem read_samples_truncates {rng} (gauss : rng -> f64 * rng)
    (w : world rng) :
  (forall x,
     read_samples gauss x w =
     bindM (lift (int x)) (fun k => read_samples gauss (PyInt k)) w) /\
  (forall f, flt zero f = true -> flt f one = true ->
     int (PyFloat f) = Ok 0 /\
     read_samples gauss (PyFloat f) w = (Raise too_few, w)).
Proof.
  split.
  - intros x. unfold bindM at 1. unfold lift at 1.
    destruct (int x) as [n | e] eqn:E.
    + rewrite (read_samples_step gauss x n w E).
      rewrite (read_samples_step gauss (PyInt n) n w eq_refl). reflexivity.
    + unfold read_samples. unfold bindM at 1. unfold lift at 1. rewrite E.
      reflexivity.
  - intros f H0 H1.
    assert (E : int (PyFloat f) = Ok 0).
    { destruct f as [| s | s m]; try discriminate.
      - destruct s; discriminate.
      - unfold flt, fcompare, zero, one in H0, H1.
        change (signed false 0) with 0 in H0.
        change (signed false grid) with grid in H1.
        destruct (Z.compare_spec 0 (signed s m)); try discriminate.
        destruct (Z.compare_spec (signed s m) grid); try discriminate.
        cbn [int]. f_equal. apply Z.quot_small. lia. }
    split; [exact E |].
    rewrite (read_samples_step gauss (PyFloat f) 0 w E). reflexivity.
Qed.

Lemma read_samples_truncates_witness :
  int (PyFloat Samples.half) = Ok 0 /\
  read_samples Samples.counter_gauss (PyFloat Samples.half) Samples.fresh
  = (Raise too_few, Samples.fresh).
Proof.
  apply (proj2 (read_samples_truncates Samples.counter_gauss Samples.fresh)
           Samples.half); vm_compute; reflexivity.
Defined.


(** C9: on every device in every state of the world, a newly constructed
    one included, [close()] raises nothing, returns [None], and leaves
    [sample_rate], [center_freq] and [gain] (and the rest of the world) as
    they were. *)
Theorem close_no_effect {rng} (w : world rng) :
  close w = (Ok tt, w) /\
  sample_rate (self_obj (snd (close w))) = sample_rate (self_obj w) /\
  center_freq (self_obj (snd (close w))) = center_freq (self_obj w) /\
  gain (self_obj (snd (close w))) = gain (self_obj w) /\
  (forall g : rng, close (World init g) = (Ok tt, World init g)).
Proof. repeat split. Qed.

(** C3: for an argument that is not the text "auto" and that [float]
    does not accept, [parse_gain] returns nothing and raises: for [None]
    its own [TypeError], for a text the [ValueError] of [float]; in both
    the message ends with the [repr] of the argument. *)
Theorem parse_gain_rejects (v : text_arg) :
  text_eq_str v "auto" = false ->
  (forall f, float v <> Ok f) ->
  parse_gain v =
    Raise (Exn (match v with PyNone => TypeError | PyStr _ => ValueError end)
               ((match v with
                 | PyNone => "Invalid gain string: "
                 | PyStr _ => "could not convert string to float: "
                 end) ++ repr v)).
Proof.
  intros Hauto Hnum. unfold parse_gain. rewrite Hauto.
  destruct v as [| s]; [reflexivity |].
  unfold float in *. destruct (parse_float s) as [f |].
  - exfalso. apply (Hnum f). reflexivity.
  - reflexivity.
Qed.

Lemma parse_gain_rejects_witness :
  parse_gain (PyStr "abc") =
    Raise (Exn ValueError "could not convert string to float: 'abc'").
Proof.
  apply (parse_gain_rejects (PyStr "abc")).
  - reflexivity.
  - intros f H. vm_compute in H. discriminate.
Defined.


(** C8: [parse_gain("auto")] is the sentinel; for every text [float]
    accepts, [parse_gain] returns the float [float] gives;
    [parse_gain("3.5")] is 3.5, that is 7 * 2^1073 units of 2^-1074.
    [parse_gain] takes no world and returns none: its result or exception
    is a function of the argument alone (last part). *)
Theorem parse_gain_accepts :
  parse_gain (PyStr "auto") = Ok (GStr "auto") /\
  (forall s f, float (PyStr s) = Ok f ->
     parse_gain (PyStr s) = Ok (GFloat f)) /\
  parse_gain (PyStr "3.5") = Ok (GFloat (Ffin false (7 * 2 ^ 1073))) /\
  (forall v v', v = v' -> parse_gain v = parse_gain v').
Proof.
  split; [reflexivity | split; [| split]].
  - intros s f H. unfold parse_gain, text_eq_str.
    destruct (String.eqb_spec s "auto") as [-> | _].
    + vm_compute in H. discriminate.
    + rewrite H. reflexivity.
  - vm_compute. reflexivity.
  - intros v v' ->. reflexivity.
Qed.

Lemma parse_gain_accepts_witness :
  parse_gain (PyStr "1e-2") = Ok (GFloat (of_decimal false 1 (-2))).
Proof.
  apply (proj1 (proj2 parse_gain_accepts) "1e-2"%string).
  vm_compute. reflexivity.
Defined.

(* ===================================================================== *)
(** * Rounding is monotone *)
(* ===================================================================== *)

(** The distance of the rounded value to the exact one is at most both
    remainders of the exact value in its spacing. *)
Lemma round_ne_distance p d n :
  0 < d -> round_ne p d = Some n ->
  exists k',
    n * d = k' * (d * 2 ^ shift (p / d)) /\
    Z.abs (n * d - p) <= p mod (d * 2 ^ shift (p / d)) /\
    Z.abs (n * d - p) <= d * 2 ^ shift (p / d) - p mod (d * 2 ^ shift (p / d)).
Proof.
  intros Hd. pose proof (unit_pos p d Hd) as Hu.
  unfold round_ne. cbv zeta.
  set (j := shift (p / d)) in *. set (u := d * 2 ^ j) in *.
  pose proof (Z.div_mod p u ltac:(lia)) as Hdm.
  pose proof (Z.mod_pos_bound p u Hu) as Hm.
  set (k := p / u) in *. set (r := p mod u) in *.
  assert (Hk : forall k', k' * 2 ^ j * d = k' * u) by (intros; unfold u; ring).
  destruct (Z.compare_spec (2 * r) u) as [E | E | E];
    [destruct (Z.even k) | |];
    (destruct (_ <? top); [| discriminate]);
    intros H; injection H as <-; eexists; (split; [apply Hk |]); lia.
Qed.

(** No representable magnitude is nearer to the exact value than the
    rounded one. *)
Lemma round_ne_best p d n a :
  0 < d -> 0 <= p -> round_ne p d = Some n -> representable a ->
  Z.abs (n * d - p) <= Z.abs (a * d - p).
Proof.
  intros Hd Hp Hr Ha.
  destruct (round_ne_distance p d n Hd Hr) as [k' [Hn [D1 D2]]].
  pose proof (unit_pos p d Hd) as Hu.
  pose proof (shift_nonneg (p / d)) as Hj0.
  pose proof (pow_shift_pos (p / d)) as H2j.
  assert (Hq0 : 0 <= p / d) by (apply Z.div_pos; lia).
  set (j := shift (p / d)) in *. set (u := d * 2 ^ j) in *.
  pose proof (Z.div_mod p u ltac:(lia)) as Hdm.
  pose proof (Z.mod_pos_bound p u Hu) as Hm.
  set (k := p / u) in *. set (r := p mod u) in *.
  destruct (Z_le_gt_dec j (shift a)) as [Hja | Hja].
  - (* [a] is on the grid of the spacing *)
    pose proof (representable_divides a j Ha (conj Hj0 Hja)) as Hdiv.
    apply Z.div_exact in Hdiv; [| lia].
    set (c := a / 2 ^ j) in *.
    assert (Hac : a * d = c * u) by (rewrite Hdiv; unfold u; ring).
    rewrite Hac.
    destruct (Z_le_gt_dec c k) as [Hck | Hck].
    + assert (0 <= (k - c) * u) by (apply Z.mul_nonneg_nonneg; lia). lia.
    + assert (u <= (c - k) * u) by nia. lia.
  - (* [a] is below the binade of the exact value *)
    destruct Ha as [[Ha0 _] _].
    assert (Hjpos : 0 < j) by (pose proof (shift_nonneg a); lia).
    assert (Hjq : j = Z.log2 (p / d) - 52) by (unfold j, shift in *; lia).
    assert (Hqpos : 0 < p / d).
    { destruct (Z.eq_dec (p / d) 0) as [E | E]; [| lia].
      rewrite E in Hjq. cbn in Hjq. lia. }
    destruct (Z.log2_spec (p / d) Hqpos) as [Hlo _].
    assert (Halt : a < 2 ^ Z.log2 (p / d)).
    { destruct (Z.eq_dec a 0) as [-> | Hne].
      - apply Z.pow_pos_nonneg; [lia | apply Z.log2_nonneg].
      - destruct (Z.log2_spec a ltac:(lia)) as [_ Hhi].
        apply Z.lt_le_trans with (2 ^ Z.succ (Z.log2 a)); [exact Hhi |].
        apply Z.pow_le_mono_r; [lia |]. unfold shift in Hja. lia. }
    assert (Hpow : 2 ^ Z.log2 (p / d) = 2 ^ 52 * 2 ^ j).
    { rewrite <- Z.pow_add_r by lia. f_equal. lia. }
    assert (H52 : 0 < 2 ^ 52) by (apply Z.pow_pos_nonneg; lia).
    pose proof (Z.mul_div_le p d Hd) as Hqd.
    assert (Hbu : 2 ^ 52 * u <= p).
    { apply Z.le_trans with (d * (p / d)); [| exact Hqd].
      unfold u. rewrite Hpow in Hlo. nia. }
    assert (Hk52 : 2 ^ 52 <= k).
    { unfold k. apply Z.div_le_lower_bound; lia. }
    assert (Had : a * d < 2 ^ 52 * u).
    { unfold u. rewrite Hpow in Halt. nia. }
    assert (0 <= (k - 2 ^ 52) * u) by (apply Z.mul_nonneg_nonneg; lia).
    lia.
Qed.

(** Rounding is monotone. *)
Lemma round_ne_mono p1 p2 d n1 n2 :
  0 < d -> 0 <= p1 <= p2 ->
  round_ne p1 d = Some n1 -> round_ne p2 d = Some n2 -> n1 <= n2.
Proof.
  intros Hd Hp H1 H2.
  pose proof (round_ne_representable p1 d n1 Hd ltac:(lia) H1) as R1.
  pose proof (round_ne_representable p2 d n2 Hd ltac:(lia) H2) as R2.
  pose proof (round_ne_best p1 d n1 n2 Hd ltac:(lia) H1 R2) as B1.
  pose proof (round_ne_best p2 d n2 n1 Hd ltac:(lia) H2 R1) as B2.
  destruct (Z_le_gt_dec n1 n2) as [| Hgt]; [assumption | exfalso].
  assert (Hnd : n2 * d < n1 * d) by nia.
  assert (p1 = p2) by lia. subst p2.
  rewrite H1 in H2. injection H2 as ->. lia.
Qed.

(* ===================================================================== *)
(** * More on the normalisation *)
(* ===================================================================== *)

Import Values.

Lemma fsub_zero_r o :
  representable o -> fsub (Ffin false o) (Ffin false 0) = Ffin false o.
Proof.
  intros Ho. unfold fsub, fneg, fadd, signed. cbn [negb andb].
  rewrite Z.add_0_r.
  destruct (Z.eqb_spec o 0) as [-> | Hne]; [reflexivity |].
  destruct Ho as [[H0 Ht] Hm].
  destruct (Z.ltb_spec o 0); [lia |].
  rewrite Z.abs_eq by lia.
  rewrite <- (Z.mul_1_r o) at 1.
  rewrite round_ne_exact; [reflexivity | lia | repeat split; assumption].
Qed.

Lemma fdiv_one_r o :
  representable o -> fdiv (Ffin false o) one = Ffin false o.
Proof.
  intros Ho. unfold one. rewrite (fdiv_nonneg o grid grid_pos).
  rewrite (round_ne_exact o grid grid_pos Ho). reflexivity.
Qed.

(** Subtracting one value from two: the order of the two is kept. *)
Lemma fsub_ge_mono a1 a2 b :
  representable a1 -> representable a2 -> 0 <= b <= a1 -> a1 <= a2 ->
  mag_of (fsub (Ffin false a1) (Ffin false b))
  <= mag_of (fsub (Ffin false a2) (Ffin false b)).
Proof.
  intros H1 H2 Hb Hle.
  destruct (fsub_ge a1 b H1 Hb) as [c1 [E1 [R1 Z1]]].
  destruct (fsub_ge a2 b H2 ltac:(lia)) as [c2 [E2 [R2 Z2]]].
  rewrite E1, E2. cbn [mag_of].
  destruct (Z.eq_dec a1 b) as [Hab | Hab].
  { assert (c1 = 0) by (apply Z1; exact Hab).
    destruct R2 as [[? _] _]. lia. }
  revert E1 E2. unfold fsub, fneg, fadd, signed. cbn [negb andb].
  destruct (Z.eqb_spec (a1 + - b) 0); [lia |].
  destruct (Z.eqb_spec (a2 + - b) 0); [lia |].
  destruct (Z.ltb_spec (a1 + - b) 0); [lia |].
  destruct (Z.ltb_spec (a2 + - b) 0); [lia |].
  rewrite !Z.abs_eq by lia.
  destruct (round_ne (a1 + - b) 1) as [n1 |] eqn:Hr1; [| discriminate].
  destruct (round_ne (a2 + - b) 1) as [n2 |] eqn:Hr2; [| discriminate].
  cbn [of_round]. intros E1 E2. injection E1 as <-. injection E2 as <-.
  apply (round_ne_mono (a1 + - b) (a2 + - b) 1); [lia | lia | assumption..].
Qed.

(** Dividing two values by one: the order of the two is kept. *)
Lemma fdiv_le_mono c1 c2 m :
  0 <= c1 <= c2 -> c2 <= m -> 0 < m ->
  mag_of (fdiv (Ffin false c1) (Ffin false m))
  <= mag_of (fdiv (Ffin false c2) (Ffin false m)).
Proof.
  intros Hc Hm Hpos.
  destruct (fdiv_le c1 m ltac:(lia) Hpos) as [o1 [E1 _]].
  destruct (fdiv_le c2 m ltac:(lia) Hpos) as [o2 [E2 _]].
  rewrite E1, E2. cbn [mag_of].
  rewrite (fdiv_nonneg c1 m Hpos) in E1. rewrite (fdiv_nonneg c2 m Hpos) in E2.
  pose proof grid_pos.
  destruct (round_ne (c1 * grid) m) as [n1 |] eqn:Hr1; [| discriminate].
  destruct (round_ne (c2 * grid) m) as [n2 |] eqn:Hr2; [| discriminate].
  injection E1 as <-. injection E2 as <-.
  apply (round_ne_mono (c1 * grid) (c2 * grid) m); [lia | nia | assumption..].
Qed.

(** The rescaling of an array of non-negative finite values that are not
    all equal, on the magnitudes: the result is again such an array, it
    has a zero and a one, and it is the image of the array under a
    monotone map. *)
Lemma rescale_mags ns :
  Forall representable ns ->
  all_equal (map (Ffin false) ns) = false ->
  exists F : Z -> Z,
    rescale (map (Ffin false) ns) = Ok (map (Ffin false) (map F ns)) /\
    (forall n, In n ns -> representable (F n) /\ F n <= grid) /\
    (forall n1 n2, In n1 ns -> In n2 ns -> n1 <= n2 -> F n1 <= F n2) /\
    In 0 (map F ns) /\ In grid (map F ns).
Proof.
  intros Hrep Hne.
  destruct ns as [| n0 ns']; [discriminate |].
  set (ns := n0 :: ns') in *.
  set (m := fold_left Z.min ns' n0).
  destruct (fold_min_spec ns' n0) as [Hm_in Hm_le]. fold m ns in Hm_in, Hm_le.
  rewrite Forall_forall in Hrep.
  assert (Hm0 : 0 <= m) by (destruct (Hrep m Hm_in) as [[? _] _]; assumption).
  set (g := fun n => mag_of (fsub (Ffin false n) (Ffin false m))).
  assert (Hg : forall n, In n ns ->
             fsub (Ffin false n) (Ffin false m) = Ffin false (g n) /\
             representable (g n) /\ (g n = 0 <-> n = m)).
  { intros n Hn.
    destruct (fsub_ge n m (Hrep n Hn)) as [c [Hc [Hc1 Hc2]]].
    - split; [exact Hm0 | apply Hm_le; exact Hn].
    - unfold g. rewrite Hc. cbn [mag_of]. auto. }
  assert (Hshift : map (fun x => fsub x (Ffin false m)) (map (Ffin false) ns)
                   = map (Ffin false) (map g ns)).
  { rewrite !map_map. apply map_ext_in. intros n Hn. apply (Hg n Hn). }
  set (M := fold_left Z.max (map g ns') (g n0)).
  destruct (fold_max_spec (map g ns') (g n0)) as [HM_in HM_le].
  change (g n0 :: map g ns') with (map g ns) in HM_in, HM_le.
  fold M in HM_in, HM_le.
  assert (Hcs : forall n, In n ns -> 0 <= g n <= M).
  { intros n Hn. split; [| apply HM_le; apply in_map; exact Hn].
    destruct (Hg n Hn) as [_ [[[? _] _] _]]. assumption. }
  assert (HM : 0 < M).
  { destruct (Z_lt_le_dec 0 M) as [? | HM0]; [assumption | exfalso].
    rewrite (all_equal_constant ns m) in Hne; [discriminate |].
    intros n Hn. apply (Hg n Hn). pose proof (Hcs n Hn). lia. }
  set (h := fun c => mag_of (fdiv (Ffin false c) (Ffin false M))).
  assert (Hh : forall n, In n ns ->
             fdiv (Ffin false (g n)) (Ffin false M) = Ffin false (h (g n)) /\
             representable (h (g n)) /\ h (g n) <= grid).
  { intros n Hn.
    destruct (fdiv_le (g n) M (Hcs n Hn) HM) as [o [Ho Hb]].
    unfold h. rewrite Ho. cbn [mag_of]. split; [reflexivity |].
    split; [| lia].
    destruct (fdiv_nonneg_shape (g n) M) as [o' [Ho' Hr]];
      [apply (Hcs n Hn) | exact HM | rewrite Ho; reflexivity |].
    rewrite Ho in Ho'. injection Ho' as ->. exact Hr. }
  exists (fun n => h (g n)).
  split; [| split; [| split; [| split]]].
  - unfold rescale.
    assert (Hmin : np_min (map (Ffin false) ns) = Ok (Ffin false m)).
    { unfold ns. cbn [map np_min]. rewrite fold_fmin_fin. reflexivity. }
    rewrite Hmin. cbn [bind]. rewrite Hshift.
    assert (Hmax : np_max (map (Ffin false) (map g ns)) = Ok (Ffin false M)).
    { unfold ns. cbn [map np_max]. rewrite fold_fmax_fin. reflexivity. }
    rewrite Hmax. cbn [bind]. f_equal.
    rewrite !map_map. apply map_ext_in. intros n Hn. apply (Hh n Hn).
  - intros n Hn. apply (Hh n Hn).
  - intros n1 n2 H1 H2 Hle. unfold h. apply fdiv_le_mono.
    + split; [apply (Hcs n1 H1) |]. unfold g.
      apply fsub_ge_mono; [apply Hrep; assumption.. | | assumption].
      split; [exact Hm0 | apply Hm_le; assumption].
    + apply (Hcs n2 H2).
    + exact HM.
  - apply in_map_iff. exists m. split; [| exact Hm_in].
    destruct (Hg m Hm_in) as [_ [_ Hz]].
    unfold h. rewrite (proj2 Hz eq_refl).
    change (Ffin false 0) with zero. rewrite (fdiv_zero M HM). reflexivity.
  - apply in_map_iff in HM_in. destruct HM_in as [n [HnM Hn]].
    apply in_map_iff. exists n. split; [| exact Hn].
    unfold h. rewrite HnM, (fdiv_self M HM). reflexivity.
Qed.


Lemma fle_fin a b : fle (Ffin false a) (Ffin false b) = true <-> a <= b.
Proof.
  unfold fle, fcompare, signed.
  destruct (Z.compare_spec a b); split; intros; try reflexivity;
    try discriminate; lia.
Qed.

Lemma in_combine_map {A B C} (f : A -> B) (g : A -> C) l x y :
  In (x, y) (combine (map f l) (map g l)) ->
  exists a, In a l /\ x = f a /\ y = g a.
Proof.
  induction l as [| a l IH]; [intros [] |].
  cbn. intros [E | H].
  - injection E as <- <-. exists a. auto.
  - destruct (IH H) as [a' [? [? ?]]]. exists a'. auto.
Qed.

(** The ratio of two arrays of strictly positive finite values in which
    nothing overflows, as an array of magnitudes. *)
Lemma ratio_mags obs base ratio :
  List.length obs = List.length base ->
  forallb positive_finite obs = true ->
  forallb positive_finite base = true ->
  np_divide obs base = Ok ratio ->
  existsb is_inf ratio = false ->
  exists ns, ratio = map (Ffin false) ns /\ Forall representable ns.
Proof.
  intros Hlen Hobs Hbase Hdiv Hfin.
  rewrite (np_divide_same_length obs base Hlen) in Hdiv.
  injection Hdiv as <-.
  apply nonneg_array.
  apply ratio_nonneg; [apply forallb_Forall; assumption.. |].
  apply Forall_forall. intros x Hx.
  destruct (is_inf x) eqn:E; [| reflexivity].
  assert (existsb is_inf
            (map (fun xy => fdiv (fst xy) (snd xy)) (combine obs base)) = true)
    by (apply existsb_exists; exists x; auto).
  congruence.
Qed.

(** X8: under the conditions of the range property (one length, strictly
    positive finite values, no ratio out of range, ratios not all equal),
    the normalisation keeps the order of the ratios: of two bins, the one
    with the smaller ratio never gets the larger normalised value. *)
Theorem normalise_keeps_order (obs base ratio : list f64) :
  List.length obs = List.length base ->
  forallb positive_finite obs = true ->
  forallb positive_finite base = true ->
  np_divide obs base = Ok ratio ->
  existsb is_inf ratio = false ->
  all_equal ratio = false ->
  exists out,
    normalise obs base = Ok out /\
    forall x x' y y',
      In (x, x') (combine ratio out) -> In (y, y') (combine ratio out) ->
      fle x y = true -> fle x' y' = true.
Proof.
  intros Hlen Hobs Hbase Hdiv Hfin Hne.
  destruct (ratio_mags obs base ratio Hlen Hobs Hbase Hdiv Hfin)
    as [ns [-> Hrep]].
  destruct (rescale_mags ns Hrep Hne) as [F [Hres [_ [Hmono _]]]].
  exists (map (Ffin false) (map F ns)). split.
  - unfold normalise. rewrite Hdiv. exact Hres.
  - intros x x' y y' Hx Hy Hle. rewrite map_map in Hx, Hy.
    destruct (in_combine_map _ _ _ _ _ Hx) as [n1 [H1 [-> ->]]].
    destruct (in_combine_map _ _ _ _ _ Hy) as [n2 [H2 [-> ->]]].
    apply fle_fin. apply Hmono; [assumption.. |]. apply fle_fin. exact Hle.
Qed.

Lemma normalise_keeps_order_witness :
  exists out,
    normalise Samples.obs3 Samples.base3 = Ok out /\
    forall x x' y y',
      In (x, x') (combine Samples.ratio3 out) ->
      In (y, y') (combine Samples.ratio3 out) ->
      fle x y = true -> fle x' y' = true.
Proof.
  apply (normalise_keeps_order Samples.obs3 Samples.base3 Samples.ratio3);
    vm_compute; reflexivity.
Defined.

(** The extremes of an array with values in [0, 1] that has a zero and a
    one. *)
Lemma unit_array_extremes os :
  (forall o, In o os -> representable o /\ o <= grid) ->
  In 0 os -> In grid os ->
  np_min (map (Ffin false) os) = Ok zero /\
  np_max (map (Ffin false) os) = Ok one.
Proof.
  intros Hos H0 H1.
  destruct os as [| o0 os']; [destruct H0 |].
  cbn [map np_min np_max]. rewrite fold_fmin_fin, fold_fmax_fin.
  destruct (fold_min_spec os' o0) as [Hm_in Hm_le].
  destruct (fold_max_spec os' o0) as [HM_in HM_le].
  pose proof (Hm_le 0 H0). pose proof (HM_le grid H1).
  destruct (Hos _ Hm_in) as [[[? _] _] _].
  destruct (Hos _ HM_in) as [_ ?].
  unfold zero, one. split; do 2 f_equal; lia.
Qed.

Lemma rescale_unit_array os :
  (forall o, In o os -> representable o /\ o <= grid) ->
  In 0 os -> In grid os ->
  rescale (map (Ffin false) os) = Ok (map (Ffin false) os).
Proof.
  intros Hos H0 H1.
  destruct (unit_array_extremes os Hos H0 H1) as [Hmin Hmax].
  assert (Hshift : map (fun x => fsub x zero) (map (Ffin false) os)
                   = map (Ffin false) os).
  { rewrite map_map. apply map_ext_in. intros o Ho.
    apply fsub_zero_r. apply (Hos o Ho). }
  unfold rescale. rewrite Hmin. cbn [bind]. rewrite Hshift, Hmax. cbn [bind].
  f_equal. rewrite map_map. apply map_ext_in. intros o Ho.
  apply fdiv_one_r. apply (Hos o Ho).
Qed.

(** X9: under the same conditions, the result has minimum exactly 0.0 and
    maximum exactly 1.0, and rescaling it again (lines 242-243) returns it
    unchanged. *)
Theorem normalise_idempotent (obs base ratio : list f64) :
  List.length obs = List.length base ->
  forallb positive_finite obs = true ->
  forallb positive_finite base = true ->
  np_divide obs base = Ok ratio ->
  existsb is_inf ratio = false ->
  all_equal ratio = false ->
  exists out,
    normalise obs base = Ok out /\
    rescale out = Ok out /\
    np_min out = Ok zero /\ np_max out = Ok one.
Proof.
  intros Hlen Hobs Hbase Hdiv Hfin Hne.
  destruct (ratio_mags obs base ratio Hlen Hobs Hbase Hdiv Hfin)
    as [ns [-> Hrep]].
  destruct (rescale_mags ns Hrep Hne) as [F [Hres [Hrange [_ [H0 H1]]]]].
  assert (Hos : forall o, In o (map F ns) -> representable o /\ o <= grid).
  { intros o Ho. apply in_map_iff in Ho. destruct Ho as [n [<- Hn]].
    apply Hrange. exact Hn. }
  exists (map (Ffin false) (map F ns)). split; [| split].
  - unfold normalise. rewrite Hdiv. exact Hres.
  - apply rescale_unit_array; assumption.
  - apply unit_array_extremes; assumption.
Qed.

Lemma normalise_idempotent_witness :
  exists out,
    normalise Samples.obs3 Samples.base3 = Ok out /\
    rescale out = Ok out /\
    np_min out = Ok zero /\ np_max out = Ok one.
Proof.
  apply (normalise_idempotent Samples.obs3 Samples.base3 Samples.ratio3);
    vm_compute; reflexivity.
Defined.

(** A NaN met by a reduction stays to the end. *)
Lemma fold_fmin_nan l : fold_left fmin l Fnan = Fnan.
Proof. induction l as [| y l IH]; [reflexivity | exact IH]. Qed.

Lemma fold_fmin_has_nan l x :
  existsb is_nan (x :: l) = true -> fold_left fmin l x = Fnan.
Proof.
  revert x. induction l as [| y l IH]; intros x H.
  - cbn in H. rewrite orb_false_r in H. destruct x; try discriminate.
    reflexivity.
  - cbn [fold_left]. apply IH.
    cbn [existsb] in *.
    destruct x as [| s | s n]; [reflexivity | |];
      (destruct y as [| t | t k]; [reflexivity | |]);
      cbn [is_nan orb] in *; unfold fmin;
      match goal with |- context [if ?c then _ else _] => destruct c end;
      cbn [is_nan orb]; exact H.
Qed.

Lemma fsub_nan_r x : fsub x Fnan = Fnan.
Proof. destruct x; reflexivity. Qed.

(** X10: if one element of the ratio is a NaN (a bin where observation and
    baseline are both zero, or a NaN in either), every element of the
    result is a NaN. *)
Theorem normalise_nan_spreads (obs base ratio : list f64) :
  np_divide obs base = Ok ratio ->
  existsb is_nan ratio = true ->
  normalise obs base = Ok (map (fun _ => Fnan) ratio).
Proof.
  intros Hdiv Hnan. unfold normalise. rewrite Hdiv. cbn [bind].
  destruct ratio as [| r l]; [discriminate |].
  unfold rescale. cbn [np_min]. rewrite (fold_fmin_has_nan l r Hnan).
  cbn [bind].
  assert (Hshift : map (fun x => fsub x Fnan) (r :: l)
                   = map (fun _ => Fnan) (r :: l))
    by (apply map_ext; apply fsub_nan_r).
  rewrite Hshift. cbn [map np_max]. rewrite fold_fmax_constant. cbn [bind].
  rewrite map_map. reflexivity.
Qed.

Lemma normalise_nan_spreads_witness :
  normalise AppSamples.with_zero_bin AppSamples.with_zero_bin
  = Ok (map (fun _ => Fnan) [Fnan; one]).
Proof.
  apply (normalise_nan_spreads AppSamples.with_zero_bin
           AppSamples.with_zero_bin [Fnan; one]);
    vm_compute; reflexivity.
Defined.

Lemma rescale_length r out :
  rescale r = Ok out -> r <> [] /\ List.length out = List.length r.
Proof.
  unfold rescale. destruct r as [| x l]; [discriminate |].
  cbn [np_min bind map np_max]. intros H. injection H as <-.
  split; [discriminate |]. cbn [List.length]. rewrite !length_map. reflexivity.
Qed.

(** X12: when the normalisation returns an array, neither input was empty
    and the array has the length of the longer input; with an empty input
    it raises. *)
Theorem normalise_shape (obs base out : list f64) :
  normalise obs base = Ok out ->
  obs <> [] /\ base <> [] /\
  List.length out = Nat.max (List.length obs) (List.length base).
Proof.
  unfold normalise, np_divide.
  destruct (Nat.eqb_spec (List.length obs) (List.length base)) as [E | E].
  - cbn [bind]. intros H. apply rescale_length in H. destruct H as [Hne ->].
    rewrite length_map, length_combine, <- E, Nat.min_id, Nat.max_id.
    destruct obs as [| x obs]; [contradiction Hne; reflexivity |].
    destruct base as [| y base]; [discriminate |].
    repeat split; discriminate.
  - destruct obs as [| x [| x' obs]];
      destruct base as [| y [| y' base]];
      try (contradiction E; reflexivity);
      cbn [bind]; intros H; try discriminate H;
      apply rescale_length in H; destruct H as [Hne H];
      try (contradiction Hne; reflexivity);
      rewrite H, length_map;
      repeat split; try discriminate; reflexivity.
Qed.

Lemma normalise_shape_witness :
  Samples.obs2 <> [] /\ Samples.base1 <> [] /\
  List.length [zero; one]
  = Nat.max (List.length Samples.obs2) (List.length Samples.base1).
Proof.
  apply (normalise_shape Samples.obs2 Samples.base1 [zero; one]).
  vm_compute. reflexivity.
Defined.

Lemma nonneg_or_inf_inv x :
  nonneg_or_inf x = true ->
  (exists n, x = Ffin false n /\ representable n) \/ x = Finf false.
Proof.
  destruct x as [| [|] | [|] n]; try discriminate; cbn.
  - right. reflexivity.
  - intros H. left. exists n. split; [reflexivity |].
    apply representableb_spec. exact H.
Qed.

Lemma fmin_ext acc x :
  nonneg_or_inf acc = true -> nonneg_or_inf x = true ->
  fmin acc x = if ext_mag acc <? ext_mag x then acc else x.
Proof.
  intros Ha Hx.
  destruct (nonneg_or_inf_inv _ Ha) as [[a [-> [[_ Hat] _]]] | ->];
    destruct (nonneg_or_inf_inv _ Hx) as [[b [-> [[_ Hbt] _]]] | ->];
    unfold fmin, flt, fcompare, signed, is_nan, ext_mag; cbn [Bool.eqb];
    rewrite ?orb_false_r.
  - destruct (Z.compare_spec a b); destruct (Z.ltb_spec a b);
      try reflexivity; lia.
  - destruct (Z.ltb_spec a top); [reflexivity | lia].
  - destruct (Z.ltb_spec top b); [lia | reflexivity].
  - rewrite Z.ltb_irrefl. reflexivity.
Qed.

Lemma fmax_ext acc x :
  nonneg_or_inf acc = true -> nonneg_or_inf x = true ->
  fmax acc x = if ext_mag x <? ext_mag acc then acc else x.
Proof.
  intros Ha Hx.
  destruct (nonneg_or_inf_inv _ Ha) as [[a [-> [[_ Hat] _]]] | ->];
    destruct (nonneg_or_inf_inv _ Hx) as [[b [-> [[_ Hbt] _]]] | ->];
    unfold fmax, flt, fcompare, signed, is_nan, ext_mag; cbn [Bool.eqb];
    rewrite ?orb_false_r.
  - destruct (Z.compare_spec b a); destruct (Z.ltb_spec b a);
      try reflexivity; lia.
  - destruct (Z.ltb_spec top a); [lia | reflexivity].
  - destruct (Z.ltb_spec b top); [reflexivity | lia].
  - rewrite Z.ltb_irrefl. reflexivity.
Qed.

Lemma fold_fmin_ext l x :
  nonneg_or_inf x = true -> forallb nonneg_or_inf l = true ->
  nonneg_or_inf (fold_left fmin l x) = true /\
  In (fold_left fmin l x) (x :: l) /\
  forall y, In y (x :: l) -> ext_mag (fold_left fmin l x) <= ext_mag y.
Proof.
  revert x. induction l as [| a l IH]; intros x Hx Hl.
  - cbn [fold_left]. split; [exact Hx |]. split; [left; reflexivity |].
    intros y [<- | []]. apply Z.le_refl.
  - cbn [forallb] in Hl. apply andb_true_iff in Hl. destruct Hl as [Ha Hl].
    cbn [fold_left].
    assert (Hacc : nonneg_or_inf (fmin x a) = true /\
                   (fmin x a = x \/ fmin x a = a) /\
                   ext_mag (fmin x a) <= ext_mag x /\
                   ext_mag (fmin x a) <= ext_mag a).
    { rewrite (fmin_ext x a Hx Ha).
      destruct (Z.ltb_spec (ext_mag x) (ext_mag a)); repeat split; auto; lia. }
    destruct Hacc as [Hp [Hor [Hle1 Hle2]]].
    destruct (IH (fmin x a) Hp Hl) as [Hp' [Hin Hmin]].
    split; [exact Hp' |]. split.
    + destruct Hin as [E | Hin]; [| right; right; exact Hin].
      rewrite <- E. destruct Hor as [-> | ->]; [left | right; left]; reflexivity.
    + intros y Hy. pose proof (Hmin _ (or_introl eq_refl)).
      destruct Hy as [<- | [<- | Hy]]; [lia | lia |].
      apply Hmin. right. exact Hy.
Qed.

Lemma fold_fmax_ext l x :
  nonneg_or_inf x = true -> forallb nonneg_or_inf l = true ->
  nonneg_or_inf (fold_left fmax l x) = true /\
  forall y, In y (x :: l) -> ext_mag y <= ext_mag (fold_left fmax l x).
Proof.
  revert x. induction l as [| a l IH]; intros x Hx Hl.
  - cbn [fold_left]. split; [exact Hx |]. intros y [<- | []]. apply Z.le_refl.
  - cbn [forallb] in Hl. apply andb_true_iff in Hl. destruct Hl as [Ha Hl].
    cbn [fold_left].
    assert (Hacc : nonneg_or_inf (fmax x a) = true /\
                   ext_mag x <= ext_mag (fmax x a) /\
                   ext_mag a <= ext_mag (fmax x a)).
    { rewrite (fmax_ext x a Hx Ha).
      destruct (Z.ltb_spec (ext_mag a) (ext_mag x)); repeat split; auto; lia. }
    destruct Hacc as [Hp [Hle1 Hle2]].
    destruct (IH (fmax x a) Hp Hl) as [Hp' Hmax].
    split; [exact Hp' |].
    intros y Hy. pose proof (Hmax _ (or_introl eq_refl)).
    destruct Hy as [<- | [<- | Hy]]; [lia | lia |].
    apply Hmax. right. exact Hy.
Qed.

(** A value of the class at the top of the scale is the infinity. *)
Lemma ext_mag_top x :
  nonneg_or_inf x = true -> top <= ext_mag x -> x = Finf false.
Proof.
  intros Hx Ht.
  destruct (nonneg_or_inf_inv _ Hx) as [[n [-> [[_ Hn] _]]] | ->];
    [cbn [ext_mag] in Ht; lia | reflexivity].
Qed.

Lemma nonneg_finite_inv x :
  nonneg_finite x = true -> exists n, x = Ffin false n /\ representable n.
Proof.
  destruct x as [| s | [|] n]; try discriminate. cbn.
  intros H. exists n. split; [reflexivity | apply representableb_spec; exact H].
Qed.

(** The quotient of a positive value by a non-negative one. *)
Lemma fdiv_positive_by_nonneg x y :
  positive_finite x = true -> nonneg_finite y = true ->
  nonneg_or_inf (fdiv x y) = true.
Proof.
  intros Hx Hy.
  destruct (positive_finite_inv x Hx) as [a [-> [Ha _]]].
  destruct (nonneg_finite_inv y Hy) as [b [-> [[Hb _] _]]].
  unfold fdiv. cbn [xorb].
  destruct (Z.eqb_spec b 0) as [-> | Hb0].
  - destruct (Z.eqb_spec a 0); [lia | reflexivity].
  - pose proof grid_pos.
    destruct (round_ne (a * grid) b) as [n |] eqn:E; [| reflexivity].
    cbn. apply representableb_spec.
    apply (round_ne_representable (a * grid) b n); [lia | nia | exact E].
Qed.

Lemma ratio_ext obs base :
  forallb positive_finite obs = true ->
  forallb nonneg_finite base = true ->
  forallb nonneg_or_inf
    (map (fun xy => fdiv (fst xy) (snd xy)) (combine obs base)) = true.
Proof.
  revert base. induction obs as [| x obs IH]; intros base Ho Hb;
    [reflexivity |].
  destruct base as [| y base]; [reflexivity |].
  cbn [forallb combine map fst snd] in *.
  apply andb_true_iff in Ho. apply andb_true_iff in Hb.
  destruct Ho as [Hx Ho]. destruct Hb as [Hy Hb].
  rewrite (fdiv_positive_by_nonneg x y Hx Hy). cbn [andb].
  apply IH; assumption.
Qed.

(** The rescaling of an array of the class that holds an infinity. *)
Lemma rescale_with_inf ratio :
  forallb nonneg_or_inf ratio = true ->
  existsb is_inf ratio = true ->
  rescale ratio = Ok (map (fun r => if is_inf r then Fnan else zero) ratio).
Proof.
  intros Hp Hinf.
  destruct ratio as [| r0 l]; [discriminate |].
  assert (Hp0 : nonneg_or_inf r0 = true /\ forallb nonneg_or_inf l = true)
    by (apply andb_true_iff; exact Hp).
  destruct Hp0 as [Hr0 Hl].
  destruct (fold_fmin_ext l r0 Hr0 Hl) as [He [Hin Hmin]].
  set (e := fold_left fmin l r0) in *.
  rewrite forallb_forall in Hp.
  apply existsb_exists in Hinf. destruct Hinf as [i [Hi_in Hi]].
  assert (Hi' : i = Finf false).
  { pose proof (Hp i Hi_in) as Hpi.
    destruct (nonneg_or_inf_inv _ Hpi) as [[n [-> _]] | ->];
      [discriminate | reflexivity]. }
  subst i.
  unfold rescale. cbn [np_min]. fold e. cbn [bind]. cbv zeta.
  set (S := fun y => fsub y e).
  assert (HS : forall y, In y (r0 :: l) ->
             (e <> Finf false -> nonneg_or_inf (S y) = true) /\
             (e = Finf false -> S y = Fnan) /\
             (e <> Finf false ->
              fdiv (S y) (Finf false) = if is_inf y then Fnan else zero) /\
             (e <> Finf false -> y = Finf false -> S y = Finf false)).
  { intros y Hy. pose proof (Hmin y Hy) as Hle. pose proof (Hp y Hy) as Hpy.
    unfold S.
    destruct (nonneg_or_inf_inv _ He) as [[m [Em Rm]] | Em]; rewrite Em in *.
    - destruct (nonneg_or_inf_inv _ Hpy) as [[n [-> Rn]] | ->].
      + cbn [ext_mag] in Hle.
        destruct (fsub_ge n m Rn) as [c [Hc [Rc _]]].
        { destruct Rm as [[? _] _]. lia. }
        rewrite Hc. repeat split; try discriminate.
        intros _. cbn. apply representableb_spec. exact Rc.
      + repeat split; try discriminate; reflexivity.
    - assert (y = Finf false) by (apply ext_mag_top; assumption).
      subst y. repeat split; try reflexivity; congruence. }
  destruct (nonneg_or_inf_inv _ He) as [[m [Em Rm]] | Em].
  - (* a finite minimum: the maximum after the subtraction is infinite *)
    assert (Hne : e <> Finf false) by (rewrite Em; discriminate).
    assert (Hsp : forallb nonneg_or_inf (map S (r0 :: l)) = true).
    { apply forallb_forall. intros z Hz. apply in_map_iff in Hz.
      destruct Hz as [y [<- Hy]]. apply (HS y Hy). exact Hne. }
    cbn [map forallb] in Hsp. apply andb_true_iff in Hsp.
    destruct Hsp as [Hs0 Hsl].
    destruct (fold_fmax_ext (map S l) (S r0) Hs0 Hsl) as [Hh Hmax].
    assert (Hhi : fold_left fmax (map S l) (S r0) = Finf false).
    { apply ext_mag_top; [exact Hh |].
      assert (Hin' : In (Finf false) (S r0 :: map S l)).
      { change (S r0 :: map S l) with (map S (r0 :: l)).
        apply in_map_iff. exists (Finf false). split; [| exact Hi_in].
        apply (HS _ Hi_in); [exact Hne | reflexivity]. }
      apply (Hmax _ Hin'). }
    assert (Hnpmax : np_max (map S (r0 :: l)) = Ok (Finf false))
      by (cbn [map np_max]; rewrite Hhi; reflexivity).
    rewrite Hnpmax. cbn [bind]. f_equal.
    rewrite map_map. apply map_ext_in. intros y Hy. apply (HS y Hy). exact Hne.
  - (* every ratio is infinite *)
    assert (Hall : forall y, In y (r0 :: l) -> y = Finf false).
    { intros y Hy. apply ext_mag_top; [apply Hp; exact Hy |].
      pose proof (Hmin y Hy) as Hle. rewrite Em in Hle. exact Hle. }
    assert (Hshift : map S (r0 :: l) = map (fun _ => Fnan) (r0 :: l)).
    { apply map_ext_in. intros y Hy. apply (HS y Hy). exact Em. }
    rewrite Hshift.
    assert (Hnpmax : np_max (map (fun _ : f64 => Fnan) (r0 :: l)) = Ok Fnan)
      by (cbn [map np_max]; rewrite fold_fmax_constant; reflexivity).
    rewrite Hnpmax. cbn [bind]. f_equal.
    rewrite map_map. apply map_ext_in. intros y Hy.
    rewrite (Hall y Hy). reflexivity.
Qed.

(** X11: for a strictly positive observation over a non-negative baseline
    of the same length, if one ratio is infinite (a zero baseline bin, or
    an overflow), the result is a NaN at every such bin and exactly 0.0 at
    every other bin. *)
Theorem normalise_overflow_collapses (obs base ratio : list f64) :
  List.length obs = List.length base ->
  forallb positive_finite obs = true ->
  forallb nonneg_finite base = true ->
  np_divide obs base = Ok ratio ->
  existsb is_inf ratio = true ->
  normalise obs base
  = Ok (map (fun r => if is_inf r then Fnan else zero) ratio).
Proof.
  intros Hlen Hobs Hbase Hdiv Hinf. unfold normalise. rewrite Hdiv. cbn [bind].
  rewrite (np_divide_same_length obs base Hlen) in Hdiv.
  injection Hdiv as <-.
  apply rescale_with_inf; [apply ratio_ext; assumption | exact Hinf].
Qed.

Lemma normalise_overflow_collapses_witness :
  normalise AppSamples.obs_positive AppSamples.base_zero_bin
  = Ok (map (fun r => if is_inf r then Fnan else zero)
          [Finf false; Samples.two]).
Proof.
  apply (normalise_overflow_collapses AppSamples.obs_positive
           AppSamples.base_zero_bin [Finf false; Samples.two]);
    vm_compute; reflexivity.
Defined.

(* ===================================================================== *)
(** * More on the SDR wrapper *)
(* ===================================================================== *)

Lemma np_random_normal_refuses {rng} (gauss : rng -> f64 * rng) n scale w :
  signbit scale = true -> is_nan scale = false ->
  np_random_normal gauss n scale w = (Raise (Exn ValueError "scale < 0"), w).
Proof.
  intros H1 H2. unfold np_random_normal. rewrite H1, H2. reflexivity.
Qed.

Lemma draws_state {rng} (gauss : rng -> f64 * rng) k scale g :
  snd (draws gauss k scale g) = Nat.iter k (fun s => snd (gauss s)) g.
Proof.
  revert g. induction k as [| k IH]; intros g; [reflexivity |].
  cbn [draws]. destruct (gauss g) as [z g1] eqn:E.
  specialize (IH g1). destruct (draws gauss k scale g1) as [zs g2].
  cbn [snd] in *. rewrite IH, Nat.iter_succ_r, E. reflexivity.
Qed.

(** The read of a valid count on a device whose gain is acceptable. *)
Lemma read_samples_run {rng} (gauss : rng -> f64 * rng) x n w :
  int x = Ok n -> 1 <= n <= 2 ^ 24 ->
  gain_ok (gain (self_obj w)) = true ->
  exists scale,
    float_times (of_decimal false 1 (-2)) (get_gain (self_obj w)) = Ok scale /\
    signbit scale = false /\
    read_samples gauss x w
    = (Ok (to_complex
             (fst (draws gauss (Z.to_nat n) scale (rand w)))
             (fst (draws gauss (Z.to_nat n) scale
                     (snd (draws gauss (Z.to_nat n) scale (rand w)))))),
       World (self_obj w)
         (snd (draws gauss (Z.to_nat n) scale
                 (snd (draws gauss (Z.to_nat n) scale (rand w)))))).
Proof.
  intros Hint Hn Hg. change (2 ^ 24) with 16777216 in Hn.
  rewrite (read_samples_step gauss x n w Hint). settle_count.
  destruct (scale_accepted _ Hg) as [scale [Hs Hsign]].
  exists scale. split; [exact Hs |]. split; [exact Hsign |].
  unfold bindM at 1. unfold lift. rewrite Hs.
  unfold bindM at 1. rewrite (np_random_normal_accepts gauss n scale w Hsign).
  unfold bindM at 1. rewrite (np_random_normal_accepts gauss n scale _ Hsign).
  reflexivity.
Qed.

(** X2: a read of a valid count on a device whose gain is acceptable
    leaves the generator where exactly [2 * n] draws leave it: [n] for the
    real parts, then [n] for the imaginary parts. *)
Theorem read_samples_draws {rng} (gauss : rng -> f64 * rng)
    (w : world rng) (x : num) (n : Z) :
  int x = Ok n -> 1 <= n <= 2 ^ 24 ->
  gain_ok (gain (self_obj w)) = true ->
  rand (snd (read_samples gauss x w))
  = Nat.iter (2 * Z.to_nat n) (fun s => snd (gauss s)) (rand w).
Proof.
  intros Hint Hn Hg.
  destruct (read_samples_run gauss x n w Hint Hn Hg) as [scale [_ [_ ->]]].
  cbn [snd rand]. rewrite !draws_state.
  replace (2 * Z.to_nat n)%nat with (Z.to_nat n + Z.to_nat n)%nat by lia.
  rewrite Nat.iter_add. reflexivity.
Qed.

Lemma read_samples_draws_witness :
  rand (snd (read_samples Samples.counter_gauss (PyInt 3) Samples.fresh))
  = Nat.iter (2 * Z.to_nat 3) (fun s => snd (Samples.counter_gauss s))
      (rand Samples.fresh).
Proof.
  apply (read_samples_draws Samples.counter_gauss Samples.fresh (PyInt 3) 3
           eq_refl).
  - split; discriminate.
  - reflexivity.
Defined.

(** X1: whatever the count and the gain, [read_samples] leaves the device
    as it was; and a read that raises (a bad count, a gain that cannot be
    multiplied, a scale numpy refuses) has drawn nothing: the whole world
    is as before. *)
Theorem read_samples_frame {rng} (gauss : rng -> f64 * rng)
    (w : world rng) (x : num) :
  self_obj (snd (read_samples gauss x w)) = self_obj w /\
  (forall e, fst (read_samples gauss x w) = Raise e ->
             snd (read_samples gauss x w) = w).
Proof.
  destruct (int x) as [n | e0] eqn:Hint.
  - rewrite (read_samples_step gauss x n w Hint).
    destruct (negb (n >? 0)); [split; reflexivity |].
    destruct (n >? MAX_READ_SAMPLES); [split; reflexivity |].
    unfold bindM at 1. unfold lift.
    destruct (float_times _ (get_gain (self_obj w))) as [scale | e1];
      [| split; reflexivity].
    unfold bindM, np_random_normal, ret.
    destruct (signbit scale && negb (is_nan scale)); [split; reflexivity |].
    destruct (draws gauss (Z.to_nat n) scale (rand w)) as [real g1].
    cbn [rand self_obj].
    destruct (draws gauss (Z.to_nat n) scale g1) as [imag g2].
    cbn [fst snd self_obj]. split; [reflexivity | discriminate].
  - unfold read_samples. unfold bindM at 1. unfold lift at 1. rewrite Hint.
    split; reflexivity.
Qed.

Lemma scale_factor_shape :
  exists k, of_decimal false 1 (-2) = Ffin false k /\ 0 < k.
Proof. eexists. split; vm_compute; reflexivity. Qed.

(** X4: on a device whose gain is a negative float (finite or the negative
    infinity), a read of a valid count raises numpy's [ValueError] "scale
    < 0" and draws nothing. *)
Theorem read_samples_negative_gain {rng} (gauss : rng -> f64 * rng)
    (w : world rng) (x : num) (n : Z) (f : f64) :
  int x = Ok n -> 1 <= n <= 2 ^ 24 ->
  gain (self_obj w) = GFloat f ->
  well_formed f = true -> flt f zero = true ->
  read_samples gauss x w = (Raise (Exn ValueError "scale < 0"), w).
Proof.
  intros Hint Hn Hg Hwf Hneg. change (2 ^ 24) with 16777216 in Hn.
  rewrite (read_samples_step gauss x n w Hint). settle_count.
  unfold get_gain. rewrite Hg. cbn [gain_eq_str float_times].
  unfold bindM at 1. unfold lift.
  destruct scale_factor_shape as [k [-> Hk]].
  assert (Hs : signbit (fmul (Ffin false k) f) = true /\
               is_nan (fmul (Ffin false k) f) = false).
  { destruct f as [| s | s m]; try discriminate.
    - destruct s; [| discriminate]. cbn [fmul xorb].
      destruct (Z.eqb_spec k 0); [lia | split; reflexivity].
    - cbn in Hwf. apply representableb_spec in Hwf.
      destruct Hwf as [[Hm0 _] _].
      unfold flt, fcompare, zero, signed in Hneg.
      destruct s.
      + cbn [fmul xorb]. destruct (round_ne (k * m) grid); split; reflexivity.
      + destruct (Z.compare_spec m 0); try discriminate. lia. }
  destruct Hs as [H1 H2].
  unfold bindM. rewrite (np_random_normal_refuses gauss n _ w H1 H2).
  reflexivity.
Qed.

Lemma read_samples_negative_gain_witness :
  read_samples Samples.counter_gauss (PyInt 3) AppSamples.negative_device
  = (Raise (Exn ValueError "scale < 0"), AppSamples.negative_device).
Proof.
  apply (read_samples_negative_gain Samples.counter_gauss
           AppSamples.negative_device (PyInt 3) 3 (of_decimal true 1 0)
           eq_refl).
  - split; discriminate.
  - reflexivity.
  - vm_compute. reflexivity.
  - vm_compute. reflexivity.
Defined.

(** X5: on a device whose gain is a text other than the sentinel, a read
    of a valid count raises the [TypeError] of [0.01 * str] and draws
    nothing. *)
Theorem read_samples_text_gain {rng} (gauss : rng -> f64 * rng)
    (w : world rng) (x : num) (n : Z) (s : string) :
  int x = Ok n -> 1 <= n <= 2 ^ 24 ->
  gain (self_obj w) = GStr s -> s <> "auto"%string ->
  read_samples gauss x w
  = (Raise (Exn TypeError
              "can't multiply sequence by non-int of type 'float'"), w).
Proof.
  intros Hint Hn Hg Hs. change (2 ^ 24) with 16777216 in Hn.
  rewrite (read_samples_step gauss x n w Hint). settle_count.
  unfold get_gain. rewrite Hg. cbn [gain_eq_str].
  destruct (String.eqb_spec s "auto"); [contradiction |].
  reflexivity.
Qed.

Lemma read_samples_text_gain_witness :
  read_samples Samples.counter_gauss (PyInt 3) AppSamples.manual_device
  = (Raise (Exn TypeError
              "can't multiply sequence by non-int of type 'float'"),
     AppSamples.manual_device).
Proof.
  apply (read_samples_text_gain Samples.counter_gauss
           AppSamples.manual_device (PyInt 3) 3 "manual" eq_refl).
  - split; discriminate.
  - reflexivity.
  - discriminate.
Defined.

(** X6: what [parse_gain] returns is the sentinel or the float [float]
    gave, never another text; so a device that holds it has an effective
    gain, and [0.01 * get_gain()] is a product of floats. *)
Theorem parse_gain_usable (v : text_arg) (g : Gain) :
  parse_gain v = Ok g ->
  (g = GStr "auto" \/ exists f, g = GFloat f /\ float v = Ok f) /\
  forall dev, gain dev = g ->
    exists f,
      get_gain dev = GFloat f /\
      spec_effective_gain (gain dev) = Some f /\
      float_times (of_decimal false 1 (-2)) (get_gain dev)
      = Ok (fmul (of_decimal false 1 (-2)) f).
Proof.
  unfold parse_gain. destruct (text_eq_str v "auto").
  - intros H. injection H as <-. split; [left; reflexivity |].
    intros dev Hd. exists one. unfold get_gain. rewrite Hd.
    repeat split; reflexivity.
  - destruct (float v) as [f | e]; cbn [bind try_except].
    + intros H. injection H as <-. split; [right; exists f; auto |].
      intros dev Hd. exists f. unfold get_gain. rewrite Hd.
      repeat split; reflexivity.
    + destruct (exn_class_eqb (exn_kind e) TypeError); discriminate.
Qed.

Lemma parse_gain_usable_witness :
  (GFloat (Ffin false (7 * 2 ^ 1073)) = GStr "auto" \/
   exists f, GFloat (Ffin false (7 * 2 ^ 1073)) = GFloat f /\
             float (PyStr "3.5") = Ok f) /\
  forall dev, gain dev = GFloat (Ffin false (7 * 2 ^ 1073)) ->
    exists f,
      get_gain dev = GFloat f /\
      spec_effective_gain (gain dev) = Some f /\
      float_times (of_decimal false 1 (-2)) (get_gain dev)
      = Ok (fmul (of_decimal false 1 (-2)) f).
Proof.
  apply (parse_gain_usable (PyStr "3.5")).
  vm_compute. reflexivity.
Defined.

Lemma round_ne_zero d : 0 < d -> round_ne 0 d = Some 0.
Proof.
  intros Hd. rewrite <- (Z.mul_0_l d) at 1.
  apply round_ne_exact; [exact Hd | apply representable_0].
Qed.

Lemma well_formed_inv s n :
  well_formed (Ffin s n) = true -> representable n.
Proof. cbn. apply representableb_spec. Qed.

(** A product of well formed values is well formed. *)
Lemma fmul_well_formed x y :
  well_formed x = true -> well_formed y = true ->
  well_formed (fmul x y) = true.
Proof.
  intros Hx Hy. destruct x as [| sx | sx n], y as [| sy | sy m];
    cbn [fmul]; try reflexivity.
  - destruct (m =? 0); reflexivity.
  - destruct (n =? 0); reflexivity.
  - apply well_formed_inv in Hx, Hy.
    destruct Hx as [[Hn _] _]. destruct Hy as [[Hm _] _].
    destruct (round_ne (n * m) grid) as [k |] eqn:E; [| reflexivity].
    cbn. apply representableb_spec.
    apply (round_ne_representable (n * m) grid k grid_pos); [nia | exact E].
Qed.

(** [0.0 + x] for a well formed [x]: [x] itself, but for the negative
    zero, which becomes the positive one. *)
Lemma fadd_zero_l x :
  well_formed x = true ->
  settled (fadd zero x) = true /\
  (settled x = true -> fadd zero x = x) /\
  finite (fadd zero x) = finite x.
Proof.
  intros Hx. destruct x as [| s | s n]; try (repeat split; reflexivity).
  apply well_formed_inv in Hx. pose proof Hx as [[Hn _] _].
  unfold zero, fadd. cbn [signed andb].
  destruct (Z.eqb_spec (0 + signed s n) 0) as [E | E].
  - assert (n = 0) by (unfold signed in E; destruct s; lia). subst n.
    split; [reflexivity |]. split; [| reflexivity].
    destruct s; [discriminate | reflexivity].
  - assert (Hn0 : 0 < n) by (unfold signed in E; destruct s; lia).
    assert (Habs : Z.abs (0 + signed s n) = n * 1)
      by (unfold signed; destruct s; lia).
    assert (Hsign : (0 + signed s n <? 0) = s).
    { unfold signed. destruct s; [apply Z.ltb_lt | apply Z.ltb_ge]; lia. }
    rewrite Habs, Hsign, (round_ne_exact n 1 ltac:(lia) Hx). cbn [of_round].
    split; [| split; reflexivity].
    cbn. destruct (Z.eqb_spec n 0); [lia |].
    rewrite andb_false_r, andb_true_r. apply representableb_spec. exact Hx.
Qed.

(** Adding a zero of either sign to a settled value. *)
Lemma fadd_signed_zero_r x s :
  settled x = true -> fadd x (Ffin s 0) = x.
Proof.
  destruct x as [| t | t n]; try reflexivity.
  cbn [settled]. intros H. apply andb_true_iff in H. destruct H as [Hr Hz].
  apply representableb_spec in Hr. pose proof Hr as [[Hn _] _].
  unfold fadd.
  assert (Hs0 : signed s 0 = 0) by (destruct s; reflexivity).
  rewrite Hs0, Z.add_0_r.
  destruct (Z.eqb_spec (signed t n) 0) as [E | E].
  - assert (n = 0) by (unfold signed in E; destruct t; lia). subst n.
    destruct t; [discriminate | reflexivity].
  - assert (Hn0 : 0 < n) by (unfold signed in E; destruct t; lia).
    assert (Habs : Z.abs (signed t n) = n * 1)
      by (unfold signed; destruct t; lia).
    assert (Hsign : (signed t n <? 0) = t).
    { unfold signed. destruct t; [apply Z.ltb_lt | apply Z.ltb_ge]; lia. }
    rewrite Habs, Hsign, (round_ne_exact n 1 ltac:(lia) Hr). reflexivity.
Qed.

(** [real + 1.0j * imag] for one sample: nothing is rounded, provided the
    imaginary part is finite. *)
Lemma assemble_sample x y :
  settled x = true -> settled y = true -> finite y = true ->
  cadd (of_real x) (cmul imag_unit (of_real y)) = Cx x y.
Proof.
  intros Hx Hy Hf. destruct y as [| s | s k]; try discriminate.
  pose proof Hy as Hy'. cbn [settled] in Hy'.
  apply andb_true_iff in Hy'. destruct Hy' as [Hr _].
  apply representableb_spec in Hr.
  pose proof grid_pos as Hg.
  assert (H0y : fmul zero (Ffin s k) = Ffin s 0).
  { unfold zero, fmul. rewrite Z.mul_0_l, (round_ne_zero grid Hg).
    reflexivity. }
  assert (H10 : fmul one zero = Ffin false 0).
  { unfold one, zero, fmul. rewrite Z.mul_0_r, (round_ne_zero grid Hg).
    reflexivity. }
  assert (H00 : fmul zero zero = Ffin false 0).
  { unfold zero, fmul. rewrite Z.mul_0_l, (round_ne_zero grid Hg).
    reflexivity. }
  assert (H1y : fmul one (Ffin s k) = Ffin s k).
  { unfold one, fmul. rewrite (Z.mul_comm grid k),
      (round_ne_exact k grid Hg Hr). reflexivity. }
  assert (Hsub : fsub (Ffin s 0) (Ffin false 0) = Ffin s 0).
  { destruct s; reflexivity. }
  assert (Hwf : well_formed (Ffin s k) = true)
    by (cbn; apply representableb_spec; exact Hr).
  destruct (fadd_zero_l (Ffin s k) Hwf) as [_ [Hz _]].
  unfold cadd, cmul, of_real, imag_unit. cbn [re im].
  rewrite H0y, H10, H00, H1y, Hsub.
  change (Ffin false 0) with zero. rewrite (Hz Hy), (Hz Hy).
  rewrite (fadd_signed_zero_r x s Hx). reflexivity.
Qed.

(** What the draws are: settled values, finite when the product is. *)
Lemma draws_settled {rng} (gauss : rng -> f64 * rng) k scale g :
  well_formed scale = true ->
  (forall s, well_formed (fst (gauss s)) = true) ->
  forallb settled (fst (draws gauss k scale g)) = true.
Proof.
  intros Hs Hg. revert g. induction k as [| k IH]; intros g; [reflexivity |].
  cbn [draws]. pose proof (Hg g) as Hz. destruct (gauss g) as [z g1].
  specialize (IH g1). destruct (draws gauss k scale g1) as [zs g2].
  cbn [fst forallb] in *. rewrite IH, andb_true_r.
  apply fadd_zero_l. apply fmul_well_formed; assumption.
Qed.

Lemma to_complex_exact real imag :
  forallb settled real = true -> forallb settled imag = true ->
  forallb finite imag = true ->
  to_complex real imag
  = map (fun xy => Cx (fst xy) (snd xy)) (combine real imag).
Proof.
  unfold to_complex. revert imag.
  induction real as [| x real IH]; intros imag Hr Hi Hf; [reflexivity |].
  destruct imag as [| y imag]; [reflexivity |].
  cbn [forallb combine map fst snd] in *.
  apply andb_true_iff in Hr, Hi, Hf.
  destruct Hr as [Hx Hr], Hi as [Hy Hi], Hf as [Hfy Hf].
  rewrite (assemble_sample x y Hx Hy Hfy). f_equal. apply IH; assumption.
Qed.

Lemma scale_well_formed dev scale :
  (forall f, gain dev = GFloat f -> well_formed f = true) ->
  float_times (of_decimal false 1 (-2)) (get_gain dev) = Ok scale ->
  well_formed scale = true.
Proof.
  intros Hg. unfold get_gain, gain_eq_str.
  assert (Hc : well_formed (of_decimal false 1 (-2)) = true).
  { unfold of_decimal. cbn [Z.eqb Z.leb Z.compare].
    pose proof grid_pos.
    destruct (round_ne (1 * grid) (10 ^ (- (-2)))) as [n |] eqn:E; [| reflexivity].
    cbn. apply representableb_spec.
    apply (round_ne_representable (1 * grid) (10 ^ (- (-2))) n);
      [reflexivity | lia | exact E]. }
  remember (of_decimal false 1 (-2)) as c eqn:Ec. clear Ec.
  destruct (gain dev) as [f | s] eqn:Eg.
  - cbn [float_times]. intros H. injection H as <-.
    apply fmul_well_formed; [exact Hc | apply Hg; reflexivity].
  - destruct (String.eqb s "auto"); cbn [float_times]; [| discriminate].
    intros H. injection H as <-.
    apply fmul_well_formed; [exact Hc |].
    unfold one. cbn [well_formed]. apply representableb_spec.
    apply representable_grid.
Qed.

(** A decimal literal is a well formed value. *)
Lemma of_decimal_well_formed s m e :
  0 <= m -> well_formed (of_decimal s m e) = true.
Proof.
  intros Hm. unfold of_decimal. pose proof grid_pos as Hg.
  destruct (Z.eqb_spec m 0) as [-> | Hne].
  { cbn [well_formed]. apply representableb_spec. apply representable_0. }
  destruct (Z.leb_spec 0 e) as [He | He].
  - assert (0 <= 10 ^ e) by (apply Z.pow_nonneg; lia).
    destruct (round_ne (m * 10 ^ e * grid) 1) as [n |] eqn:E; [| reflexivity].
    cbn [of_round well_formed]. apply representableb_spec.
    apply (round_ne_representable (m * 10 ^ e * grid) 1 n);
      [lia | nia | exact E].
  - assert (0 < 10 ^ (- e)) by (apply Z.pow_pos_nonneg; lia).
    destruct (round_ne (m * grid) (10 ^ (- e))) as [n |] eqn:E;
      [| reflexivity].
    cbn [of_round well_formed]. apply representableb_spec.
    apply (round_ne_representable (m * grid) (10 ^ (- e)) n);
      [lia | nia | exact E].
Qed.

(** X3: with well formed gain and draws, the block of a valid read pairs
    the first [n] scaled draws with the next [n]: as long as the imaginary
    draws are finite, sample [i] is exactly [real[i] + imag[i] j], nothing
    being lost in [real + 1.0j * imag]. *)
Theorem read_samples_block {rng} (gauss : rng -> f64 * rng)
    (w : world rng) (x : num) (n : Z) :
  int x = Ok n -> 1 <= n <= 2 ^ 24 ->
  gain_ok (gain (self_obj w)) = true ->
  (forall f, gain (self_obj w) = GFloat f -> well_formed f = true) ->
  (forall s, well_formed (fst (gauss s)) = true) ->
  exists scale real imag g1 g2,
    float_times (of_decimal false 1 (-2)) (get_gain (self_obj w)) = Ok scale /\
    draws gauss (Z.to_nat n) scale (rand w) = (real, g1) /\
    draws gauss (Z.to_nat n) scale g1 = (imag, g2) /\
    (forallb finite imag = true ->
     read_samples gauss x w
     = (Ok (map (fun xy => Cx (fst xy) (snd xy)) (combine real imag)),
        World (self_obj w) g2)).
Proof.
  intros Hint Hn Hok Hwf Hgauss.
  destruct (read_samples_run gauss x n w Hint Hn Hok) as [scale [Hs [_ Hrun]]].
  pose proof (scale_well_formed _ scale Hwf Hs) as Hsw.
  pose proof (draws_settled gauss (Z.to_nat n) scale (rand w) Hsw Hgauss) as Hr.
  destruct (draws gauss (Z.to_nat n) scale (rand w)) as [real g1] eqn:E1.
  pose proof (draws_settled gauss (Z.to_nat n) scale g1 Hsw Hgauss) as Hi.
  cbn [fst snd] in *.
  destruct (draws gauss (Z.to_nat n) scale g1) as [imag g2] eqn:E2.
  cbn [fst snd] in *.
  exists scale, real, imag, g1, g2. repeat split; try assumption.
  intros Hf. rewrite Hrun. f_equal. f_equal.
  apply to_complex_exact; assumption.
Qed.

Lemma read_samples_block_witness :
  exists scale real imag g1 g2,
    float_times (of_decimal false 1 (-2)) (get_gain (self_obj Samples.fresh))
    = Ok scale /\
    draws Samples.counter_gauss (Z.to_nat 3) scale (rand Samples.fresh)
    = (real, g1) /\
    draws Samples.counter_gauss (Z.to_nat 3) scale g1 = (imag, g2) /\
    (forallb finite imag = true ->
     read_samples Samples.counter_gauss (PyInt 3) Samples.fresh
     = (Ok (map (fun xy => Cx (fst xy) (snd xy)) (combine real imag)),
        World (self_obj Samples.fresh) g2)).
Proof.
  apply (read_samples_block Samples.counter_gauss Samples.fresh (PyInt 3) 3
           eq_refl).
  - split; discriminate.
  - reflexivity.
  - intros f H. injection H as <-. unfold one. cbn [well_formed].
    apply representableb_spec. apply representable_grid.
  - intros s. apply of_decimal_well_formed. apply Z.abs_nonneg.
Defined.

(** A character whose lower case is a given lower-case letter. *)
Lemma lower_letter c l :
  lower c = l -> (97 <=? code l) && (code l <=? 122) = true ->
  c = l \/ c = ascii_of_N (N_of_ascii l - 32).
Proof.
  intros <-.
  destruct c as [[] [] [] [] [] [] [] []]; vm_compute; intros H;
    try discriminate; auto.
Qed.

(** X7: the sentinel is matched exactly: a text that is "auto" up to
    letter case and surrounding white space, but is not "auto" itself, is
    not the sentinel; it goes to [float], and [parse_gain] raises its
    [ValueError]. *)
Theorem parse_gain_exact_sentinel (s : string) :
  s <> "auto"%string ->
  map lower (strip (list_ascii_of_string s)) = list_ascii_of_string "auto" ->
  parse_gain (PyStr s)
  = Raise (Exn ValueError ("could not convert string to float: " ++ repr_str s)).
Proof.
  intros Hne Hl. unfold parse_gain, text_eq_str.
  destruct (String.eqb_spec s "auto") as [| _]; [contradiction |].
  unfold float, parse_float.
  destruct (strip (list_ascii_of_string s)) as [| c1 [| c2 [| c3 [| c4 [| c5 l]]]]];
    try discriminate.
  cbn [map list_ascii_of_string] in Hl.
  injection Hl as H1 H2 H3 H4.
  destruct (lower_letter c1 _ H1 eq_refl) as [-> | ->];
    destruct (lower_letter c2 _ H2 eq_refl) as [-> | ->];
    destruct (lower_letter c3 _ H3 eq_refl) as [-> | ->];
    destruct (lower_letter c4 _ H4 eq_refl) as [-> | ->];
    reflexivity.
Qed.

Lemma parse_gain_exact_sentinel_witness :
  parse_gain (PyStr " AUTO")
  = Raise (Exn ValueError
             ("could not convert string to float: " ++ repr_str " AUTO")).
Proof.
  apply (parse_gain_exact_sentinel " AUTO").
  - discriminate.
  - vm_compute. reflexivity.
Defined.

(* ===================================================================== *)
(** * The application *)
(* ===================================================================== *)

Section AppFacts.

Import App.

Context {env : Type}.
Variable find_optimal_gain : sdr_class -> env -> (list f64 * result f64) * env.
Variable record_power_spectrum :
  sdr_class -> f64 -> env -> result (list f64 * list f64) * env.
Variable plot_power_spectrum_on_axes : list f64 -> list f64 -> result unit.

Abbreviation prepare := (App.prepare env find_optimal_gain record_power_spectrum).
Abbreviation sky_obs :=
  (App.sky_obs env record_power_spectrum plot_power_spectrum_on_axes).
Abbreviation command :=
  (App.command env find_optimal_gain record_power_spectrum
     plot_power_spectrum_on_axes).
Abbreviation mainloop :=
  (App.mainloop env find_optimal_gain record_power_spectrum
     plot_power_spectrum_on_axes).

Lemma world_eta (w : world env) : World (app w) (events w) (outside w) = w.
Proof. destruct w; reflexivity. Qed.

Lemma update_status_run message (w : world env) :
  update_status message w
  = (Ok tt, World (app w) (events w ++ status_events message) (outside w)).
Proof.
  unfold update_status, bindM, emit, status_events. cbn.
  rewrite <- app_assoc. reflexivity.
Qed.

Lemma clear_figure_run (w : world env) :
  clear_figure w
  = (Ok tt, World (app w) (events w ++ clear_events) (outside w)).
Proof.
  unfold clear_figure, bindM, emit, clear_events. cbn.
  rewrite <- !app_assoc. reflexivity.
Qed.

Lemma text_lines_run x y ystep lines (w : world env) :
  text_lines env x y ystep lines w
  = (Ok tt,
     World (app w) (events w ++ text_events x y ystep lines) (outside w)).
Proof.
  revert y w. induction lines as [| line rest IH]; intros y w.
  - cbn. rewrite app_nil_r, world_eta. reflexivity.
  - cbn [text_lines text_events]. unfold bindM at 1. unfold emit at 1.
    rewrite IH. cbn [app events outside]. rewrite <- app_assoc. reflexivity.
Qed.

Lemma show_text_run lines title (w : world env) :
  show_text_on_figure lines title w
  = (Ok tt,
     World (app w) (events w ++ show_text_events lines title) (outside w)).
Proof.
  unfold show_text_on_figure, show_text_events.
  unfold bindM at 1. rewrite clear_figure_run.
  unfold bindM at 1. unfold emit at 1.
  unfold bindM at 1. rewrite text_lines_run.
  unfold emit. cbn [app events outside].
  rewrite <- !app_assoc. reflexivity.
Qed.

Lemma callbacks_run gains (w : world env) :
  callbacks gains w
  = (Ok tt, World (app w) (events w ++ callback_events gains) (outside w)).
Proof.
  revert w. induction gains as [| g rest IH]; intros w.
  - cbn. rewrite app_nil_r, world_eta. reflexivity.
  - cbn [callbacks callback_events flat_map]. unfold bindM at 1.
    rewrite update_status_run, IH. cbn [app events outside].
    rewrite <- app_assoc. reflexivity.
Qed.

Lemma statuses_app es1 es2 : statuses (es1 ++ es2) = statuses es1 ++ statuses es2.
Proof.
  induction es1 as [| e es1 IH]; [reflexivity |].
  destruct e; cbn; rewrite IH; reflexivity.
Qed.

Lemma plotted_app es1 es2 : plotted (es1 ++ es2) = plotted es1 ++ plotted es2.
Proof.
  induction es1 as [| e es1 IH]; [reflexivity |].
  destruct e; cbn; rewrite IH; reflexivity.
Qed.

Lemma statuses_text_events x y ystep lines :
  statuses (text_events x y ystep lines) = [].
Proof.
  revert y. induction lines as [| l rest IH]; intros y; [reflexivity |].
  cbn. apply IH.
Qed.

Lemma plotted_text_events x y ystep lines :
  plotted (text_events x y ystep lines) = [].
Proof.
  revert y. induction lines as [| l rest IH]; intros y; [reflexivity |].
  cbn. apply IH.
Qed.

Lemma statuses_show_text lines title :
  statuses (show_text_events lines title) = [].
Proof.
  unfold show_text_events. rewrite statuses_app. cbn [clear_events statuses app].
  rewrite statuses_app, statuses_text_events. reflexivity.
Qed.

Lemma plotted_show_text lines title :
  plotted (show_text_events lines title) = [].
Proof.
  unfold show_text_events. rewrite plotted_app. cbn [clear_events plotted app].
  rewrite plotted_app, plotted_text_events. reflexivity.
Qed.

Lemma statuses_callbacks gains :
  statuses (callback_events gains)
  = map (fun g => ("Status: Finding optimal gain ... trying gain = "
                   ++ format_2f g)%string) gains.
Proof.
  induction gains as [| g rest IH]; [reflexivity |].
  cbn [callback_events flat_map map]. rewrite statuses_app.
  fold (callback_events rest). rewrite IH. reflexivity.
Qed.

Lemma plotted_callbacks gains : plotted (callback_events gains) = [].
Proof.
  induction gains as [| g rest IH]; [reflexivity |].
  cbn [callback_events flat_map]. rewrite plotted_app.
  fold (callback_events rest). rewrite IH. reflexivity.
Qed.


(** Rewrite the next drawing method of a sequence by its events. *)
Ltac draw :=
  unfold bindM at 1;
  first [ rewrite show_text_run | rewrite update_status_run
        | rewrite clear_figure_run | rewrite callbacks_run
        | unfold emit at 1 ];
  cbn [app events outside].

Lemma call_find_run (w : world env) :
  call_find_optimal_gain env find_optimal_gain w
  = (snd (fst (find_optimal_gain (_sdr_class (app w)) (outside w))),
     World (app w)
       (events w
        ++ callback_events
             (fst (fst (find_optimal_gain (_sdr_class (app w)) (outside w)))))
       (snd (find_optimal_gain (_sdr_class (app w)) (outside w)))).
Proof.
  unfold call_find_optimal_gain.
  destruct (find_optimal_gain (_sdr_class (app w)) (outside w))
    as [[gains r] o].
  rewrite callbacks_run. reflexivity.
Qed.


Lemma call_record_run gain (w : world env) :
  call_record_power_spectrum env record_power_spectrum gain w
  = (fst (record_power_spectrum (_sdr_class (app w)) gain (outside w)),
     World (app w) (events w)
       (snd (record_power_spectrum (_sdr_class (app w)) gain (outside w)))).
Proof.
  unfold call_record_power_spectrum.
  destruct (record_power_spectrum (_sdr_class (app w)) gain (outside w)).
  reflexivity.
Qed.

(** [prepare] up to the end of the gain search. *)
Lemma prepare_run (w : world env) :
  prepare w
  = let found := find_optimal_gain (_sdr_class (app w)) (outside w) in
    let w1 := World (app w) (events w ++ search_events (fst (fst found)))
                (snd found) in
    match snd (fst found) with
    | Raise err =>
        (Ok tt,
         World (app w)
           (events w1
            ++ status_events ("Preparation failed: " ++ str_of_exn err))
           (snd found))
    | Ok gain =>
        let recorded :=
          record_power_spectrum (_sdr_class (app w)) gain (snd found) in
        let w2 := World (with_gain (app w) gain)
                    (events w1 ++ recording_events gain) (snd recorded) in
        match fst recorded with
        | Raise e => (Raise e, w2)
        | Ok fp =>
            (Ok tt,
             World (with_baseline (with_gain (app w) gain) (snd fp))
               (events w2 ++ complete_events gain) (snd recorded))
        end
    end.
Proof.
  cbv zeta. unfold App.prepare. draw. draw.
  unfold bindM at 1. unfold try_. rewrite call_find_run.
  cbn [app events outside fst snd].
  unfold search_events. rewrite <- !app_assoc.
  destruct (snd (fst (find_optimal_gain (_sdr_class (app w)) (outside w))))
    as [gain | err].
  - unfold bindM at 1. unfold set_optimal_gain at 1.
    cbn [app events outside]. draw. draw.
    unfold bindM at 1. rewrite call_record_run.
    cbn [app events outside _sdr_class with_gain].
    unfold recording_events. rewrite <- !app_assoc.
    destruct (fst (record_power_spectrum (_sdr_class (app w)) gain _))
      as [fp | e]; [| reflexivity].
    unfold bindM at 1. unfold set_baseline_power_spectrum at 1.
    cbn [app events outside]. draw. rewrite show_text_run.
    cbn [app events outside]. unfold complete_events.
    rewrite <- !app_assoc. reflexivity.
  - rewrite update_status_run. cbn [app events outside].
    rewrite <- !app_assoc. reflexivity.
Qed.


Lemma ylim_top_finite : exists k, of_decimal false 101 (-2) = Ffin false k.
Proof. eexists. vm_compute. reflexivity. Qed.

(** [sky_obs], outcome by outcome. *)
Lemma sky_obs_run (w : world env) :
  sky_obs w
  = match _baseline_power_spectrum (app w), _optimal_gain (app w) with
    | Some baseline, Some gain =>
        let recorded :=
          record_power_spectrum (_sdr_class (app w)) gain (outside w) in
        let o := snd recorded in
        let es1 := events w ++ observing_events gain in
        match fst recorded with
        | Raise err =>
            (Ok tt,
             World (app w)
               (es1 ++ status_events
                         ("Observation failed: " ++ str_of_exn err)) o)
        | Ok fp =>
            match normalise (snd fp) baseline with
            | Raise e => (Raise e, World (app w) es1 o)
            | Ok spectrum =>
                let es2 := es1 ++ plotting_events (fst fp) spectrum in
                match plot_power_spectrum_on_axes (fst fp) spectrum with
                | Raise e => (Raise e, World (app w) es2 o)
                | Ok _ =>
                    let es3 := es2 ++ title_events in
                    match np_min spectrum with
                    | Raise e => (Raise e, World (app w) es3 o)
                    | Ok (Ffin s n) =>
                        (Ok tt,
                         World (app w)
                           (es3
                            ++ [AxSetYlim (Ffin s n)
                                  (of_decimal false 101 (-2));
                                TightLayout; CanvasDraw]) o)
                    | Ok _ =>
                        (Raise (Exn ValueError
                                  "Axis limits cannot be NaN or Inf"),
                         World (app w) es3 o)
                    end
                end
            end
        end
    | _, _ =>
        (Ok tt,
         World (app w)
           (events w
            ++ status_events "Please run the preparation step first!")
           (outside w))
    end.
Proof.
  unfold App.sky_obs. unfold bindM at 1. unfold self.
  destruct (_baseline_power_spectrum (app w)) as [baseline |];
    [| apply update_status_run].
  destruct (_optimal_gain (app w)) as [gain |]; [| apply update_status_run].
  cbv zeta. draw. draw. draw.
  unfold bindM at 1. unfold try_. rewrite call_record_run.
  cbn [app events outside fst snd].
  unfold observing_events. rewrite <- !app_assoc.
  destruct (fst (record_power_spectrum (_sdr_class (app w)) gain (outside w)))
    as [[freq_hz power] | err].
  - cbn [fst snd]. unfold bindM at 1. unfold lift at 1.
    destruct (normalise power baseline) as [spectrum | e]; [| reflexivity].
    draw. draw. draw.
    unfold plotting_events. rewrite <- !app_assoc.
    cbn [status_events clear_events List.app].
    unfold bindM at 1. unfold lift at 1.
    destruct (plot_power_spectrum_on_axes freq_hz spectrum) as [u | e];
      [| reflexivity].
    draw. draw. unfold title_events. rewrite <- !app_assoc. cbn [List.app].
    unfold bindM at 1. unfold lift at 1.
    destruct (np_min spectrum) as [lo | e]; [| reflexivity].
    destruct ylim_top_finite as [k Hk]. rewrite Hk.
    destruct lo as [| s | s n]; try reflexivity.
    unfold bindM at 1. unfold set_ylim. unfold emit at 1.
    cbn [app events outside]. draw. unfold emit.
    cbn [app events outside]. rewrite <- !app_assoc. reflexivity.
  - rewrite update_status_run. cbn [app events outside].
    rewrite <- !app_assoc. reflexivity.
Qed.


(** Read the status texts and the plots off a sequence of events. *)
Ltac traces :=
  rewrite ?statuses_app, ?plotted_app, ?statuses_show_text,
    ?plotted_show_text, ?statuses_callbacks, ?plotted_callbacks.

Lemma observing_trace gain :
  statuses (observing_events gain)
  = ["Status: Recording sky observation ..."%string] /\
  plotted (observing_events gain) = [].
Proof.
  unfold observing_events. traces. split; reflexivity.
Qed.

Lemma plotting_trace freq_hz spectrum :
  statuses (plotting_events freq_hz spectrum)
  = ["Status: Observation finished!"%string] /\
  plotted (plotting_events freq_hz spectrum) = [(freq_hz, spectrum)].
Proof. split; reflexivity. Qed.

Lemma search_trace gains :
  statuses (search_events gains)
  = "Status: Finding optimal gain ..."%string
    :: map (fun g => ("Status: Finding optimal gain ... trying gain = "
                      ++ format_2f g)%string) gains /\
  plotted (search_events gains) = [].
Proof.
  unfold search_events. traces. split; reflexivity.
Qed.

Lemma recording_trace gain :
  statuses (recording_events gain)
  = [("Status: Optimal gain found (" ++ format_2f gain
      ++ "), recording baseline power spectrum ...")%string] /\
  plotted (recording_events gain) = [].
Proof.
  unfold recording_events. traces. split; reflexivity.
Qed.

Lemma complete_trace gain :
  statuses (complete_events gain) = ["Status: Preparation complete!"%string] /\
  plotted (complete_events gain) = [].
Proof.
  unfold complete_events. traces. split; reflexivity.
Qed.

(** X13: [sky_obs] on an object that lacks a baseline or a gain only sets
    the status bar to "Please run the preparation step first!": it records
    nothing (the outside is untouched), draws nothing else and returns
    normally. *)
Theorem sky_obs_unprepared (w : world env) :
  _baseline_power_spectrum (app w) = None \/ _optimal_gain (app w) = None ->
  sky_obs w
  = (Ok tt,
     World (app w)
       (events w ++ status_events "Please run the preparation step first!")
       (outside w)).
Proof.
  intros H. rewrite sky_obs_run.
  destruct (_baseline_power_spectrum (app w)) as [b |]; [| reflexivity].
  destruct (_optimal_gain (app w)) as [g |]; [| reflexivity].
  destruct H; discriminate.
Qed.

(** X14: whatever the recording, the normalisation and the plotting do,
    [sky_obs] leaves the gain, the baseline and the device class of the
    object as they were, and only adds to the events. *)
Theorem sky_obs_keeps_calibration (w : world env) :
  app (snd (sky_obs w)) = app w /\
  exists es, events (snd (sky_obs w)) = events w ++ es.
Proof.
  rewrite sky_obs_run.
  destruct (_baseline_power_spectrum (app w)) as [b |];
    [| split; [reflexivity | eexists; reflexivity]].
  destruct (_optimal_gain (app w)) as [g |];
    [| split; [reflexivity | eexists; reflexivity]].
  cbv zeta.
  destruct (fst (record_power_spectrum _ g (outside w))) as [fp | err];
    [| split; [reflexivity |]; eexists; cbn [snd events];
       rewrite <- ?app_assoc; reflexivity].
  destruct (normalise (snd fp) b) as [hi | e];
    [| split; [reflexivity | eexists; reflexivity]].
  destruct (plot_power_spectrum_on_axes (fst fp) hi);
    [| split; [reflexivity |]; eexists; cbn [snd events];
       rewrite <- ?app_assoc; reflexivity].
  destruct (np_min hi) as [[| s | s n] | e];
    (split; [reflexivity |]; eexists; cbn [snd events];
     rewrite <- ?app_assoc; reflexivity).
Qed.

(** X15: when the recording raises, [sky_obs] catches the exception and
    returns normally: the status bar ends on "Observation failed: "
    followed by the text of the exception, and nothing is plotted. *)
Theorem sky_obs_recording_failure (w : world env) baseline gain err o :
  _baseline_power_spectrum (app w) = Some baseline ->
  _optimal_gain (app w) = Some gain ->
  record_power_spectrum (_sdr_class (app w)) gain (outside w) = (Raise err, o) ->
  exists es,
    sky_obs w = (Ok tt, World (app w) (events w ++ es) o) /\
    statuses es
    = ["Status: Recording sky observation ..."%string;
       ("Status: Observation failed: " ++ str_of_exn err)%string] /\
    plotted es = [].
Proof.
  intros Hb Hg Hr. rewrite sky_obs_run, Hb, Hg. cbv zeta. rewrite Hr.
  cbn [fst snd]. eexists. split; [rewrite <- app_assoc; reflexivity |].
  destruct (observing_trace gain) as [Hs Hp].
  rewrite statuses_app, plotted_app, Hs, Hp. split; reflexivity.
Qed.

(** X16: when the normalisation raises (arrays that cannot be broadcast,
    an empty array), the exception leaves [sky_obs]: nothing is plotted
    and the status bar still says "Recording sky observation ...". *)
Theorem sky_obs_normalise_failure (w : world env)
    baseline gain freq_hz power e o :
  _baseline_power_spectrum (app w) = Some baseline ->
  _optimal_gain (app w) = Some gain ->
  record_power_spectrum (_sdr_class (app w)) gain (outside w)
  = (Ok (freq_hz, power), o) ->
  normalise power baseline = Raise e ->
  exists es,
    sky_obs w = (Raise e, World (app w) (events w ++ es) o) /\
    statuses es = ["Status: Recording sky observation ..."%string] /\
    plotted es = [].
Proof.
  intros Hb Hg Hr Hn. rewrite sky_obs_run, Hb, Hg. cbv zeta. rewrite Hr.
  cbn [fst snd]. rewrite Hn. eexists. split; [reflexivity |].
  apply observing_trace.
Qed.

(** X19: when the gain search raises, [prepare] returns normally without
    recording a baseline: the object is unchanged, the status bar has
    shown one "trying gain" text per call of the callback, in order, and
    ends on "Preparation failed: " followed by the text of the exception. *)
Theorem prepare_search_failure (w : world env) gains err o :
  find_optimal_gain (_sdr_class (app w)) (outside w) = ((gains, Raise err), o) ->
  exists es,
    prepare w = (Ok tt, World (app w) (events w ++ es) o) /\
    statuses es
    = "Status: Finding optimal gain ..."%string
      :: map (fun g => ("Status: Finding optimal gain ... trying gain = "
                        ++ format_2f g)%string) gains
      ++ [("Status: Preparation failed: " ++ str_of_exn err)%string] /\
    plotted es = [].
Proof.
  intros Hf. rewrite prepare_run. cbv zeta. rewrite Hf. cbn [fst snd events].
  eexists. split; [rewrite <- app_assoc; reflexivity |].
  destruct (search_trace gains) as [Hs Hp].
  rewrite statuses_app, plotted_app, Hs, Hp. split; reflexivity.
Qed.

(** X20: when the gain search succeeds and the recording of the baseline
    raises, the exception leaves [prepare] with the new gain already
    stored and the baseline as it was before; the status bar still
    announces the recording. *)
Theorem prepare_recording_failure (w : world env) gains gain o1 e o2 :
  find_optimal_gain (_sdr_class (app w)) (outside w) = ((gains, Ok gain), o1) ->
  record_power_spectrum (_sdr_class (app w)) gain o1 = (Raise e, o2) ->
  exists es,
    prepare w = (Raise e, World (with_gain (app w) gain) (events w ++ es) o2) /\
    last (statuses es) ""%string
    = ("Status: Optimal gain found (" ++ format_2f gain
       ++ "), recording baseline power spectrum ...")%string /\
    plotted es = [].
Proof.
  intros Hf Hr. rewrite prepare_run. cbv zeta. rewrite Hf. cbn [fst snd events].
  rewrite Hr. cbn [fst snd]. eexists.
  split; [rewrite <- app_assoc; reflexivity |].
  destruct (search_trace gains) as [Hs Hp].
  destruct (recording_trace gain) as [Hs' Hp'].
  rewrite statuses_app, plotted_app, Hs, Hp, Hs', Hp'.
  split; [| reflexivity].
  rewrite last_last. reflexivity.
Qed.


(** X21: when the gain search and the recording succeed, [prepare] stores
    the gain found and the power spectrum recorded with it, plots nothing,
    and the status bar goes through the search, the "trying gain" texts,
    the recording and "Preparation complete!". *)
Theorem prepare_success (w : world env) gains gain o1 freq_hz power o2 :
  find_optimal_gain (_sdr_class (app w)) (outside w) = ((gains, Ok gain), o1) ->
  record_power_spectrum (_sdr_class (app w)) gain o1
  = (Ok (freq_hz, power), o2) ->
  exists es,
    prepare w
    = (Ok tt,
       World (with_baseline (with_gain (app w) gain) power) (events w ++ es) o2)
    /\
    statuses es
    = "Status: Finding optimal gain ..."%string
      :: map (fun g => ("Status: Finding optimal gain ... trying gain = "
                        ++ format_2f g)%string) gains
      ++ [("Status: Optimal gain found (" ++ format_2f gain
           ++ "), recording baseline power spectrum ...")%string;
          "Status: Preparation complete!"%string] /\
    plotted es = [].
Proof.
  intros Hf Hr. rewrite prepare_run. cbv zeta. rewrite Hf. cbn [fst snd events].
  rewrite Hr. cbn [fst snd events]. eexists.
  split; [rewrite <- !app_assoc; reflexivity |].
  destruct (search_trace gains) as [Hs Hp].
  destruct (recording_trace gain) as [Hs' Hp'].
  destruct (complete_trace gain) as [Hs'' Hp''].
  rewrite !statuses_app, !plotted_app, Hs, Hp, Hs', Hp', Hs'', Hp''.
  split; [| reflexivity].
  cbn [List.app]. rewrite <- ?app_assoc. reflexivity.
Qed.

(** A normalisation within the unit interval, with its minimum. *)
Lemma normalise_unit power baseline ratio :
  List.length power = List.length baseline ->
  forallb positive_finite power = true ->
  forallb positive_finite baseline = true ->
  np_divide power baseline = Ok ratio ->
  existsb is_inf ratio = false ->
  all_equal ratio = false ->
  exists spectrum,
    normalise power baseline = Ok spectrum /\
    forallb in_unit_interval spectrum = true /\
    np_min spectrum = Ok zero.
Proof.
  intros Hlen Hobs Hbase Hdiv Hfin Hne.
  destruct (ratio_mags power baseline ratio Hlen Hobs Hbase Hdiv Hfin)
    as [ns [-> Hrep]].
  destruct (rescale_mags ns Hrep Hne) as [F [Hres [Hrange [_ [H0 H1]]]]].
  assert (Hos : forall o, In o (map F ns) -> representable o /\ o <= grid).
  { intros o Ho. apply in_map_iff in Ho. destruct Ho as [n [<- Hn]].
    apply Hrange. exact Hn. }
  exists (map (Ffin false) (map F ns)). split; [| split].
  - unfold normalise. rewrite Hdiv. exact Hres.
  - apply forallb_forall. intros x Hx. apply in_map_iff in Hx.
    destruct Hx as [o [<- Ho]]. apply in_unit_fin.
    destruct (Hos o Ho) as [[[? _] _] ?]. lia.
  - apply unit_array_extremes; assumption.
Qed.

(** X17: on a prepared object, when the recording succeeds and observation
    and baseline meet the conditions of the range property, [sky_obs]
    returns normally, hands to the plotting function the frequencies
    recorded and the normalised spectrum, all of it in [0, 1], sets the y
    limits to (0.0, 1.01), and the status bar ends on "Observation
    finished!". *)
Theorem sky_obs_unit_range (w : world env)
    baseline gain freq_hz power ratio o :
  _baseline_power_spectrum (app w) = Some baseline ->
  _optimal_gain (app w) = Some gain ->
  record_power_spectrum (_sdr_class (app w)) gain (outside w)
  = (Ok (freq_hz, power), o) ->
  List.length power = List.length baseline ->
  forallb positive_finite power = true ->
  forallb positive_finite baseline = true ->
  np_divide power baseline = Ok ratio ->
  existsb is_inf ratio = false ->
  all_equal ratio = false ->
  (forall spectrum, plot_power_spectrum_on_axes freq_hz spectrum = Ok tt) ->
  exists spectrum es,
    sky_obs w = (Ok tt, World (app w) (events w ++ es) o) /\
    normalise power baseline = Ok spectrum /\
    forallb in_unit_interval spectrum = true /\
    plotted es = [(freq_hz, spectrum)] /\
    In (AxSetYlim zero (of_decimal false 101 (-2))) es /\
    statuses es
    = ["Status: Recording sky observation ..."%string;
       "Status: Observation finished!"%string].
Proof.
  intros Hb Hg Hr Hlen Hp Hbp Hdiv Hfin Hne Hplot.
  destruct (normalise_unit power baseline ratio Hlen Hp Hbp Hdiv Hfin Hne)
    as [spectrum [Hn [Hu Hmin]]].
  exists spectrum.
  rewrite sky_obs_run, Hb, Hg. cbv zeta. rewrite Hr. cbn [fst snd].
  rewrite Hn, Hplot, Hmin. unfold zero at 1.
  eexists. split; [rewrite <- !app_assoc; reflexivity |].
  split; [reflexivity |]. split; [exact Hu |].
  destruct (observing_trace gain) as [Hs Hpl].
  rewrite !statuses_app, !plotted_app, Hs, Hpl.
  split; [reflexivity |]. split; [| reflexivity].
  apply in_or_app. right. apply in_or_app. right. apply in_or_app. right.
  left. reflexivity.
Qed.

(** X18: on a prepared object, when the ratio of the recorded spectrum to
    the baseline is all-equal, [sky_obs] shows "Observation finished!",
    hands an all-NaN spectrum to the plotting function, and then raises
    the [ValueError] of [set_ylim] on a NaN limit. *)
Theorem sky_obs_flat_raises (w : world env)
    baseline gain freq_hz power ratio o :
  _baseline_power_spectrum (app w) = Some baseline ->
  _optimal_gain (app w) = Some gain ->
  record_power_spectrum (_sdr_class (app w)) gain (outside w)
  = (Ok (freq_hz, power), o) ->
  np_divide power baseline = Ok ratio ->
  ratio <> [] ->
  all_equal ratio = true ->
  plot_power_spectrum_on_axes freq_hz (map (fun _ => Fnan) ratio) = Ok tt ->
  exists es,
    sky_obs w
    = (Raise (Exn ValueError "Axis limits cannot be NaN or Inf"),
       World (app w) (events w ++ es) o) /\
    plotted es = [(freq_hz, map (fun _ => Fnan) ratio)] /\
    statuses es
    = ["Status: Recording sky observation ..."%string;
       "Status: Observation finished!"%string].
Proof.
  intros Hb Hg Hr Hdiv Hne Heq Hplot.
  assert (Hn : normalise power baseline = Ok (map (fun _ => Fnan) ratio)).
  { unfold normalise. rewrite Hdiv. cbn [bind].
    destruct ratio as [| r l]; [congruence |].
    rewrite (all_equal_inv r l Heq) at 1. apply rescale_constant. }
  assert (Hmin : np_min (map (fun _ => Fnan) ratio) = Ok Fnan).
  { destruct ratio as [| r l]; [congruence |].
    cbn [map np_min]. rewrite fold_fmin_constant. reflexivity. }
  rewrite sky_obs_run, Hb, Hg. cbv zeta. rewrite Hr. cbn [fst snd].
  rewrite Hn, Hplot, Hmin.
  eexists. split; [rewrite <- !app_assoc; reflexivity |].
  destruct (observing_trace gain) as [Hs Hpl].
  rewrite !statuses_app, !plotted_app, Hs, Hpl. split; reflexivity.
Qed.

(** [prepare] leaves an object that holds a gain, or leaves the object as
    it was. *)
Lemma prepare_app (w : world env) :
  app (snd (prepare w)) = app w \/
  _optimal_gain (app (snd (prepare w))) <> None.
Proof.
  rewrite prepare_run. cbv zeta.
  destruct (snd (fst (find_optimal_gain _ (outside w)))) as [gain | err];
    [| left; reflexivity].
  right.
  destruct (fst (record_power_spectrum _ gain _)); cbn; discriminate.
Qed.

Lemma sky_obs_app (w : world env) : app (snd (sky_obs w)) = app w.
Proof.
  rewrite sky_obs_run.
  destruct (_baseline_power_spectrum (app w)) as [b |]; [| reflexivity].
  destruct (_optimal_gain (app w)) as [g |]; [| reflexivity].
  cbv zeta.
  destruct (fst (record_power_spectrum _ g (outside w))) as [fp | err];
    [| reflexivity].
  destruct (normalise (snd fp) b) as [hi | e]; [| reflexivity].
  destruct (plot_power_spectrum_on_axes (fst fp) hi); [| reflexivity].
  destruct (np_min hi) as [[| s | s n] | e]; reflexivity.
Qed.

Lemma command_keeps_calibration b (w : world env) :
  calibration_ok (app w) -> calibration_ok (app (snd (command b w))).
Proof.
  intros H. destruct b; cbn [App.command].
  - destruct (prepare_app w) as [-> | Hg]; [exact H |].
    intros _. exact Hg.
  - rewrite sky_obs_app. exact H.
  - rewrite clear_figure_run. exact H.
  - exact H.
Qed.

(** X22: over any sequence of clicks on the four buttons, with commands
    that return or raise, an object that holds a baseline also holds a
    gain: the second test of the guard of [sky_obs] never decides alone. *)
Theorem mainloop_keeps_calibration clicks (w : world env) :
  calibration_ok (app w) -> calibration_ok (app (mainloop clicks w)).
Proof.
  revert w. induction clicks as [| b rest IH]; intros w H; [exact H |].
  destruct b; cbn [App.mainloop]; try exact H;
    apply IH;
    [ apply (command_keeps_calibration ButtonPrepare)
    | apply (command_keeps_calibration ButtonObserve)
    | apply (command_keeps_calibration ButtonClear) ]; exact H.
Qed.


(** X23: a successful [prepare] followed by [sky_obs]: the observation is
    recorded with the gain found, in the state of the outside the
    calibration left, and is normalised against the baseline just
    recorded; under the conditions of the range property one spectrum is
    plotted, all of it in [0, 1], and the calibration is kept. *)
Theorem prepare_then_observe (w : world env)
    gains gain o1 freq1 baseline o2 freq2 power o3 ratio :
  find_optimal_gain (_sdr_class (app w)) (outside w) = ((gains, Ok gain), o1) ->
  record_power_spectrum (_sdr_class (app w)) gain o1
  = (Ok (freq1, baseline), o2) ->
  record_power_spectrum (_sdr_class (app w)) gain o2
  = (Ok (freq2, power), o3) ->
  List.length power = List.length baseline ->
  forallb positive_finite power = true ->
  forallb positive_finite baseline = true ->
  np_divide power baseline = Ok ratio ->
  existsb is_inf ratio = false ->
  all_equal ratio = false ->
  (forall spectrum, plot_power_spectrum_on_axes freq2 spectrum = Ok tt) ->
  exists spectrum,
    fst (prepare w) = Ok tt /\
    fst (sky_obs (snd (prepare w))) = Ok tt /\
    app (snd (sky_obs (snd (prepare w))))
    = with_baseline (with_gain (app w) gain) baseline /\
    outside (snd (sky_obs (snd (prepare w)))) = o3 /\
    plotted (events (snd (sky_obs (snd (prepare w)))))
    = plotted (events w) ++ [(freq2, spectrum)] /\
    normalise power baseline = Ok spectrum /\
    forallb in_unit_interval spectrum = true.
Proof.
  intros Hf Hr1 Hr2 Hlen Hp Hbp Hdiv Hfin Hne Hplot.
  destruct (normalise_unit power baseline ratio Hlen Hp Hbp Hdiv Hfin Hne)
    as [spectrum [Hn [Hu Hmin]]].
  exists spectrum.
  rewrite prepare_run. cbv zeta. rewrite Hf. cbn [fst snd events].
  rewrite Hr1. cbn [fst snd events].
  split; [reflexivity |].
  rewrite sky_obs_run.
  cbn [app events outside with_baseline with_gain _baseline_power_spectrum
         _optimal_gain _sdr_class].
  cbv zeta. rewrite Hr2. cbn [fst snd]. rewrite Hn, Hplot, Hmin.
  unfold zero. cbn [fst snd app events outside].
  split; [reflexivity |]. split; [reflexivity |]. split; [reflexivity |].
  split; [| split; [reflexivity | exact Hu]].
  destruct (search_trace gains) as [_ Hp1].
  destruct (recording_trace gain) as [_ Hp2].
  destruct (complete_trace gain) as [_ Hp3].
  destruct (observing_trace gain) as [_ Hp4].
  rewrite !plotted_app, Hp1, Hp2, Hp3, Hp4. cbn [List.app plotted].
  rewrite !app_nil_r. reflexivity.
Qed.

End AppFacts.

(** ** The theorems on concrete surroundings *)

Lemma sky_obs_unprepared_witness :
  App.sky_obs nat AppSamples.record_ok AppSamples.plot_ok
    AppSamples.unprepared
  = (Ok tt,
     App.World (App.app AppSamples.unprepared)
       (App.events AppSamples.unprepared
        ++ App.status_events "Please run the preparation step first!")
       (App.outside AppSamples.unprepared)).
Proof.
  apply (sky_obs_unprepared AppSamples.record_ok AppSamples.plot_ok
           AppSamples.unprepared).
  left. reflexivity.
Defined.

Lemma sky_obs_recording_failure_witness :
  exists es,
    App.sky_obs nat AppSamples.record_fails AppSamples.plot_ok
      AppSamples.prepared
    = (Ok tt,
       App.World (App.app AppSamples.prepared)
         (App.events AppSamples.prepared ++ es) 3%nat) /\
    App.statuses es
    = ["Status: Recording sky observation ..."%string;
       ("Status: Observation failed: "
        ++ App.str_of_exn AppSamples.device_lost)%string] /\
    App.plotted es = [].
Proof.
  apply (sky_obs_recording_failure AppSamples.record_fails AppSamples.plot_ok
           AppSamples.prepared Samples.base3 AppSamples.gain_found);
    reflexivity.
Defined.

Lemma sky_obs_normalise_failure_witness :
  exists es,
    App.sky_obs nat AppSamples.record_short AppSamples.plot_ok
      AppSamples.prepared
    = (Raise (Exn ValueError
         "operands could not be broadcast together with shapes (2,) (3,) "),
       App.World (App.app AppSamples.prepared)
         (App.events AppSamples.prepared ++ es) 3%nat) /\
    App.statuses es = ["Status: Recording sky observation ..."%string] /\
    App.plotted es = [].
Proof.
  apply (sky_obs_normalise_failure AppSamples.record_short AppSamples.plot_ok
           AppSamples.prepared Samples.base3 AppSamples.gain_found
           AppSamples.freq3 Samples.base2);
    reflexivity.
Defined.

Lemma sky_obs_unit_range_witness :
  exists spectrum es,
    App.sky_obs nat AppSamples.record_ok AppSamples.plot_ok
      AppSamples.prepared
    = (Ok tt,
       App.World (App.app AppSamples.prepared)
         (App.events AppSamples.prepared ++ es) 3%nat) /\
    normalise Samples.obs3 Samples.base3 = Ok spectrum /\
    forallb in_unit_interval spectrum = true /\
    App.plotted es = [(AppSamples.freq3, spectrum)] /\
    In (App.AxSetYlim zero (of_decimal false 101 (-2))) es /\
    App.statuses es
    = ["Status: Recording sky observation ..."%string;
       "Status: Observation finished!"%string].
Proof.
  apply (sky_obs_unit_range AppSamples.record_ok AppSamples.plot_ok
           AppSamples.prepared Samples.base3 AppSamples.gain_found
           AppSamples.freq3 Samples.obs3 Samples.ratio3);
    try reflexivity; try (vm_compute; reflexivity).
Defined.

Lemma sky_obs_flat_raises_witness :
  exists es,
    App.sky_obs nat AppSamples.record_flat AppSamples.plot_ok
      AppSamples.prepared
    = (Raise (Exn ValueError "Axis limits cannot be NaN or Inf"),
       App.World (App.app AppSamples.prepared)
         (App.events AppSamples.prepared ++ es) 3%nat) /\
    App.plotted es
    = [(AppSamples.freq3, map (fun _ => Fnan) [one; one; one])] /\
    App.statuses es
    = ["Status: Recording sky observation ..."%string;
       "Status: Observation finished!"%string].
Proof.
  apply (sky_obs_flat_raises AppSamples.record_flat AppSamples.plot_ok
           AppSamples.prepared Samples.base3 AppSamples.gain_found
           AppSamples.freq3 Samples.base3 [one; one; one]);
    try reflexivity; try discriminate; vm_compute; reflexivity.
Defined.

Lemma prepare_search_failure_witness :
  exists es,
    App.prepare nat AppSamples.search_fails AppSamples.record_ok
      AppSamples.unprepared
    = (Ok tt,
       App.World (App.app AppSamples.unprepared)
         (App.events AppSamples.unprepared ++ es) 1%nat) /\
    App.statuses es
    = "Status: Finding optimal gain ..."%string
      :: map (fun g => ("Status: Finding optimal gain ... trying gain = "
                        ++ App.format_2f g)%string) [one]
      ++ [("Status: Preparation failed: "
           ++ App.str_of_exn AppSamples.device_lost)%string] /\
    App.plotted es = [].
Proof.
  apply (prepare_search_failure AppSamples.search_fails AppSamples.record_ok
           AppSamples.unprepared).
  reflexivity.
Defined.

Lemma prepare_recording_failure_witness :
  exists es,
    App.prepare nat AppSamples.search_ok AppSamples.record_fails
      AppSamples.unprepared
    = (Raise AppSamples.device_lost,
       App.World
         (App.with_gain (App.app AppSamples.unprepared) AppSamples.gain_found)
         (App.events AppSamples.unprepared ++ es) 2%nat) /\
    last (App.statuses es) ""%string
    = ("Status: Optimal gain found (" ++ App.format_2f AppSamples.gain_found
       ++ "), recording baseline power spectrum ...")%string /\
    App.plotted es = [].
Proof.
  apply (prepare_recording_failure AppSamples.search_ok
           AppSamples.record_fails AppSamples.unprepared
           [one; AppSamples.gain_found] AppSamples.gain_found 1%nat);
    reflexivity.
Defined.

Lemma prepare_success_witness :
  exists es,
    App.prepare nat AppSamples.search_ok AppSamples.record_ok
      AppSamples.unprepared
    = (Ok tt,
       App.World
         (App.with_baseline
            (App.with_gain (App.app AppSamples.unprepared)
               AppSamples.gain_found)
            Samples.base3)
         (App.events AppSamples.unprepared ++ es) 2%nat) /\
    App.statuses es
    = "Status: Finding optimal gain ..."%string
      :: map (fun g => ("Status: Finding optimal gain ... trying gain = "
                        ++ App.format_2f g)%string)
           [one; AppSamples.gain_found]
      ++ [("Status: Optimal gain found ("
           ++ App.format_2f AppSamples.gain_found
           ++ "), recording baseline power spectrum ...")%string;
          "Status: Preparation complete!"%string] /\
    App.plotted es = [].
Proof.
  apply (prepare_success AppSamples.search_ok AppSamples.record_ok
           AppSamples.unprepared [one; AppSamples.gain_found]
           AppSamples.gain_found 1%nat AppSamples.freq3 Samples.base3);
    reflexivity.
Defined.

Lemma mainloop_keeps_calibration_witness :
  App.calibration_ok
    (App.app
       (App.mainloop nat AppSamples.search_ok AppSamples.record_ok
          AppSamples.plot_ok AppSamples.clicks AppSamples.unprepared)).
Proof.
  apply (mainloop_keeps_calibration AppSamples.search_ok AppSamples.record_ok
           AppSamples.plot_ok AppSamples.clicks AppSamples.unprepared).
  intros H. exfalso. apply H. reflexivity.
Defined.

Lemma prepare_then_observe_witness :
  exists spectrum,
    fst (App.prepare nat AppSamples.search_ok AppSamples.record_ok
           AppSamples.unprepared) = Ok tt /\
    fst (App.sky_obs nat AppSamples.record_ok AppSamples.plot_ok
           (snd (App.prepare nat AppSamples.search_ok AppSamples.record_ok
                   AppSamples.unprepared))) = Ok tt /\
    App.app
      (snd (App.sky_obs nat AppSamples.record_ok AppSamples.plot_ok
              (snd (App.prepare nat AppSamples.search_ok AppSamples.record_ok
                      AppSamples.unprepared))))
    = App.with_baseline
        (App.with_gain (App.app AppSamples.unprepared) AppSamples.gain_found)
        Samples.base3 /\
    App.outside
      (snd (App.sky_obs nat AppSamples.record_ok AppSamples.plot_ok
              (snd (App.prepare nat AppSamples.search_ok AppSamples.record_ok
                      AppSamples.unprepared))))
    = 3%nat /\
    App.plotted
      (App.events
         (snd (App.sky_obs nat AppSamples.record_ok AppSamples.plot_ok
                 (snd (App.prepare nat AppSamples.search_ok
                         AppSamples.record_ok AppSamples.unprepared)))))
    = App.plotted (App.events AppSamples.unprepared)
      ++ [(AppSamples.freq3, spectrum)] /\
    normalise Samples.obs3 Samples.base3 = Ok spectrum /\
    forallb in_unit_interval spectrum = true.
Proof.
  apply (prepare_then_observe AppSamples.search_ok AppSamples.record_ok
           AppSamples.plot_ok AppSamples.unprepared
           [one; AppSamples.gain_found] AppSamples.gain_found 1%nat
           AppSamples.freq3 Samples.base3 2%nat AppSamples.freq3
           Samples.obs3 3%nat Samples.ratio3);
    try reflexivity; try (vm_compute; reflexivity).
Defined.

(* ===================================================================== *)
(** * Agreement of the arithmetic with [SpecFloat] *)
(* ===================================================================== *)

Example fdiv_agrees :
  Samples.agree fdiv (SpecFloat.SFdiv 53 1024) = true.
Proof. vm_compute. reflexivity. Qed.

Example fmul_agrees :
  Samples.agree fmul (SpecFloat.SFmul 53 1024) = true.
Proof. vm_compute. reflexivity. Qed.

Example fadd_agrees :
  Samples.agree fadd (SpecFloat.SFadd 53 1024) = true.
Proof. vm_compute. reflexivity. Qed.

Example fsub_agrees :
  Samples.agree fsub (SpecFloat.SFsub 53 1024) = true.
Proof. vm_compute. reflexivity. Qed.

(** The literals of [__init__] and the scale factor are valid binary64
    numbers with the expected significands. *)
Example literals :
  map to_spec [of_decimal false 1 (-2); sample_rate init; center_freq init;
               one]
  = [ SpecFloat.S754_finite false 5764607523034235 (-59);
      SpecFloat.S754_finite false 8796093022208000 (-32);
      SpecFloat.S754_finite false 5957589401600000 (-22);
      SpecFloat.S754_finite false 4503599627370496 (-52) ].
Proof. vm_compute. reflexivity. Qed.

(** [float] on texts of the grammar and on texts outside it. *)
Example float_accepts :
  map (fun s => parse_float s)
      ["  -1_0.25e+1 "; ".5"; "5."; "-InFinity"; "nan"]%string
  = [ Some (Ffin true (205 * 2 ^ 1073)); Some (Ffin false (2 ^ 1073));
      Some (Ffin false (5 * 2 ^ 1074)); Some (Finf true); Some Fnan ].
Proof. vm_compute. reflexivity. Qed.

Example float_refuses :
  map (fun s => parse_float s)
      ["auto"; ""; "."; "1__0"; "1_"; "1._5"; "e5"; "1e"; "1 2"; "0x10"]%string
  = repeat None 10.
Proof. vm_compute. reflexivity. Qed.

Example repr_quotes :
  (repr (PyStr "it's"), repr PyNone, repr (PyStr "a b"))
  = (String dquote ("it's" ++ String dquote ""), "None", "'a b'")%string.
Proof. vm_compute. reflexivity. Qed.

